(** * Profile harvesting pipeline: a shallow embedding of
      [insta_scraper_enhanced.py] and the properties of its control logic.

    The Python functions are embedded as executable Rocq functions:
    - parsed JSON payloads are the inductive [json];
    - a Python exception is the constructor [Raise] of [outcome];
    - the one list the merge engine mutates in place (the [edges] list of a
      timeline body) lives in a store [gmap loc (list json)], so that two
      names for the same Python list are two copies of one location;
    - the browser session, the random draws, the rounding of float
      arithmetic and the two CSV files are explicit arguments or state. *)

From Stdlib Require Import ZArith QArith Qminmax String Ascii.
From stdpp Require Import base gmap sets list strings.

Local Open Scope string_scope.
Local Open Scope list_scope.
Local Open Scope nat_scope.

(** ** Parsed JSON values

    What [json.loads] returns. Numbers are integers (the counts and ids the
    pipeline reads); an object is the list of its items, looked up by key. *)

#[warnings="-register-all"]
Inductive json : Type :=
| JNull
| JBool (b : bool)
| JInt (n : Z)
| JStr (s : string)
| JList (items : list json)
| JDict (fields : list (string * json)).

(** ** Python exceptions *)

Inductive outcome (A : Type) : Type :=
| Ret (a : A)
| Raise.
Arguments Ret {A} a.
Arguments Raise {A}.

#[global] Instance outcome_ret : MRet outcome := fun _ a => Ret a.
#[global] Instance outcome_bind : MBind outcome := fun _ _ f m =>
  match m with
  | Ret a => f a
  | Raise => Raise
  end.

(** ** The Python operations the source uses on parsed values *)

Module Py.

(** [bool(x)]: [None], [False], [0] and empty containers are falsy. *)
Definition truthy (x : json) : bool :=
  match x with
  | JNull => false
  | JBool b => b
  | JInt n => negb (n =? 0)%Z
  | JStr s => negb (String.eqb s EmptyString)
  | JList l => match l with [] => false | _ => true end
  | JDict d => match d with [] => false | _ => true end
  end.

(** Truthiness of a variable that holds [None] or a parsed value. *)
Definition truthy_opt (x : option json) : bool :=
  match x with
  | None => false
  | Some v => truthy v
  end.

Fixpoint assoc (k : string) (d : list (string * json)) : option json :=
  match d with
  | [] => None
  | (k', v) :: d' => if String.eqb k k' then Some v else assoc k d'
  end.

Definition has_key (k : string) (d : list (string * json)) : bool :=
  match assoc k d with
  | Some _ => true
  | None => false
  end.

(** [p in s] for two strings. *)
Fixpoint is_substring (p s : string) : bool :=
  if String.prefix p s then true
  else match s with
       | EmptyString => false
       | String _ s' => is_substring p s'
       end.

Definition is_str (k : string) (x : json) : bool :=
  match x with
  | JStr s => String.eqb k s
  | _ => false
  end.

(** [k in x] for a string [k]: key of a dict, element of a list, substring
    of a string; [TypeError] on the other values. *)
Definition contains (k : string) (x : json) : outcome bool :=
  match x with
  | JDict d => Ret (has_key k d)
  | JList l => Ret (existsb (is_str k) l)
  | JStr s => Ret (is_substring k s)
  | JNull | JBool _ | JInt _ => Raise
  end.

(** [x[k]] for a string [k]: [KeyError] on a missing key, [TypeError] on
    anything that is not a dict. *)
Definition getitem (x : json) (k : string) : outcome json :=
  match x with
  | JDict d => match assoc k d with
               | Some v => Ret v
               | None => Raise
               end
  | _ => Raise
  end.

(** [x.get(k, default)]: only dicts have [get] ([AttributeError]). *)
Definition get (x : json) (k : string) (default : json) : outcome json :=
  match x with
  | JDict d => Ret (match assoc k d with
                    | Some v => v
                    | None => default
                    end)
  | _ => Raise
  end.

(** A value used as a number: an int, or a bool counted as 0 or 1. *)
Definition as_int (x : json) : outcome Z :=
  match x with
  | JInt n => Ret n
  | JBool b => Ret (if b then 1 else 0)%Z
  | _ => Raise
  end.

End Py.

(** ** Configuration constants *)

Module TARGET_QUERIES.
Definition profile : string := "user".
Definition timeline : string :=
  "xdt_api__v1__feed__user_timeline_graphql_connection".
End TARGET_QUERIES.

(** ** Response classifier *)

Record graphql_data := GraphqlData {
  profile_info : option json;
  reel_info : option json
}.

(** [process_graphql_response]: a body that is not a dict leaves both fields
    [None]; each of the two query names is looked up in [data] on its own.
    [Raise] is the [TypeError] of [in] on a [data] that is no container. *)
Definition process_graphql_response (response_body : json)
  : outcome graphql_data :=
  let data := {| profile_info := None; reel_info := None |} in
  match response_body with
  | JDict _ =>
      response_data ← Py.get response_body "data" (JDict []);
      has_profile ← Py.contains TARGET_QUERIES.profile response_data;
      let data :=
        if has_profile : bool
        then {| profile_info := Some response_body;
                reel_info := reel_info data |}
        else data in
      has_timeline ← Py.contains TARGET_QUERIES.timeline response_data;
      let data :=
        if has_timeline : bool
        then {| profile_info := profile_info data;
                reel_info := Some response_body |}
        else data in
      mret data
  | _ => mret data
  end.

(** The classification the spec names: which of the three tags a result
    of [process_graphql_response] amounts to; a result with both fields set
    is none of the three. *)
Inductive classified :=
| ProfileSnapshot (body : json)
| TimelinePage (body : json)
| Unrecognized
| ProfileAndTimeline (body : json).

Definition classify (d : graphql_data) : classified :=
  match profile_info d, reel_info d with
  | Some b, None => ProfileSnapshot b
  | None, Some b => TimelinePage b
  | None, None => Unrecognized
  | Some b, Some _ => ProfileAndTimeline b
  end.

(** ** Private profiles *)

(** [is_private_profile] returns the value stored under
    [data.user.is_private] (any JSON value, used for its truthiness), and
    [True] when the snapshot is missing or the lookup raises [KeyError] or
    [TypeError]. *)
Definition is_private_profile (profile_data : option json) : json :=
  match profile_data with
  | None => JBool true
  | Some pd =>
      if negb (Py.truthy pd) then JBool true
      else
        match (d ← Py.getitem pd "data";
               u ← Py.getitem d "user";
               Py.getitem u "is_private") with
        | Ret v => v
        | Raise => JBool true
        end
  end.

(** ** Rate limiter *)

(** [min(a, b)] of Python: [b] only when [b < a]. *)
Definition py_min (a b : Q) : Q := if Qlt_le_dec b a then b else a.

Section RateLimiter.

(** The rounding that float arithmetic applies to the exact result of an
    operation. *)
Variable fl : Q -> Q.

(** [a / b] on two ints. *)
Definition true_div (a b : Z) : Q := fl (inject_Z a / inject_Z b).

(** [a + b] on two floats. *)
Definition float_add (a b : Q) : Q := fl (a + b).

(** [(follower_count / 500000) + (post_count / 5000)]. *)
Definition complexity (follower_count post_count : Z) : Q :=
  float_add (true_div follower_count 500000) (true_div post_count 5000).

(** [min(complexity, 1.0)]: the part of the wait that does not depend on
    the random draw. *)
Definition additional_wait (follower_count post_count : Z) : Q :=
  py_min (complexity follower_count post_count) 1.

(** The guard [profile_data and "data" in profile_data and
    "user" in profile_data["data"]]. *)
Definition has_user (profile_data : option json) : outcome bool :=
  match profile_data with
  | None => Ret false
  | Some pd =>
      if negb (Py.truthy pd) then Ret false
      else
        has_data ← Py.contains "data" pd;
        if has_data : bool
        then d ← Py.getitem pd "data"; Py.contains "user" d
        else Ret false
  end.

(** [user_data.get(field, {}).get("count", 0)], read as a number. *)
Definition count_of (user_data : json) (field : string) : outcome json :=
  e ← Py.get user_data field (JDict []);
  Py.get e "count" (JInt 0).

(** [calculate_dynamic_wait_time]: [base_wait] is the draw of
    [random.uniform(1.0, 2.0)]. *)
Definition calculate_dynamic_wait_time (base_wait : Q)
    (profile_data : option json) : outcome Q :=
  guard ← has_user profile_data;
  if guard : bool then
    match profile_data with
    | Some pd =>
        d ← Py.getitem pd "data";
        user_data ← Py.getitem d "user";
        follower_count ← count_of user_data "edge_followed_by";
        post_count ← count_of user_data "edge_owner_to_timeline_media";
        f ← Py.as_int follower_count;
        p ← Py.as_int post_count;
        Ret (float_add base_wait (additional_wait f p))
    | None => Ret base_wait
    end
  else Ret base_wait.

(** [time.sleep(t)] raises [ValueError] on a negative length. *)
Definition sleep (t : Q) : outcome unit :=
  if Qlt_le_dec t 0 then Raise else Ret tt.

End RateLimiter.

(** ** Merge engine *)

(** The value of [edge["node"]["id"]] as a member of a Python set: [True]
    and [1] are the same member, lists and dicts are unhashable. *)
Inductive ident :=
| IdNone
| IdInt (n : Z)
| IdStr (s : string).

#[global] Instance ident_eq_dec : EqDecision ident.
Proof. solve_decision. Defined.

#[global] Instance ident_countable : Countable ident.
Proof.
  refine (inj_countable'
    (fun i : ident => match i with
              | IdNone => inl tt
              | IdInt n => inr (inl n)
              | IdStr s => inr (inr s)
              end)
    (fun x : unit + (Z + string) => match x with
              | inl _ => IdNone
              | inr (inl n) => IdInt n
              | inr (inr s) => IdStr s
              end) _).
  intros []; reflexivity.
Defined.

Definition hashable (x : json) : outcome ident :=
  match x with
  | JNull => Ret IdNone
  | JBool b => Ret (IdInt (if b then 1 else 0))
  | JInt n => Ret (IdInt n)
  | JStr s => Ret (IdStr s)
  | JList _ | JDict _ => Raise
  end.

(** [edge["node"]["id"]], as the set [existing_ids] sees it. *)
Definition edge_id (edge : json) : outcome ident :=
  node ← Py.getitem edge "node";
  i ← Py.getitem node "id";
  hashable i.

(** The store of [edges] lists. A timeline body (a Python dict) is known by
    the location of the list at [body["data"][timeline]["edges"]]; it has
    none when that path raises. Such a dict is never empty, so a body is
    truthy and only [None] is falsy. *)
Definition loc := nat.

Record timeline_data := TimelineData { edges_ref : option loc }.

(** The path [body["data"][timeline]["edges"]]. *)
Definition edges_path (body : json) : outcome json :=
  d ← Py.getitem body "data";
  t ← Py.getitem d TARGET_QUERIES.timeline;
  Py.getitem t "edges".

(** [json.loads] on a timeline body: the [edges] list is a new list object
    of the store. A value at that path that is not a list is taken as a path
    that raises. *)
Definition load_timeline (h : gmap loc (list json)) (body : json)
  : gmap loc (list json) * timeline_data :=
  match edges_path body with
  | Ret (JList edges) =>
      let l := fresh (dom h) in
      (<[l := edges]> h, {| edges_ref := Some l |})
  | _ => (h, {| edges_ref := None |})
  end.

(** [{edge["node"]["id"] for edge in existing_edges}]. *)
Fixpoint existing_ids_of (edges : list json) : outcome (gset ident) :=
  match edges with
  | [] => Ret ∅
  | edge :: rest =>
      i ← edge_id edge;
      ids ← existing_ids_of rest;
      Ret ({[ i ]} ∪ ids)
  end.

(** [existing_edges.append(edge)]. *)
Definition append (h : gmap loc (list json)) (l : loc) (edge : json)
  : gmap loc (list json) :=
  alter (fun edges => edges ++ [edge]) l h.

(** The loop [for edge in new_edges]. The iterator holds the index [i] and
    reads the list as it is now, so an append to [existing_edges] is seen
    when both names are one list. The second component is [Raise] when an
    edge without a usable id stopped the loop; the appends made before stay.
    [None] is an exhausted [fuel]. *)
Fixpoint merge_loop (fuel : nat) (h : gmap loc (list json))
    (existing_edges new_edges : loc) (i : nat) (existing_ids : gset ident)
  : option (gmap loc (list json) * outcome unit) :=
  match fuel with
  | O => None
  | S fuel' =>
      match h !! new_edges with
      | None => Some (h, Raise)
      | Some edges =>
          match edges !! i with
          | None => Some (h, Ret tt)
          | Some edge =>
              match edge_id edge with
              | Raise => Some (h, Raise)
              | Ret k =>
                  if decide (k ∈ existing_ids)
                  then merge_loop fuel' h existing_edges new_edges (S i)
                         existing_ids
                  else merge_loop fuel' (append h existing_edges edge)
                         existing_edges new_edges (S i)
                         ({[ k ]} ∪ existing_ids)
              end
          end
      end
  end.

(** The body of [merge_timeline_data] with the loop's [fuel] explicit. Every
    exception ends in the handler, which returns [existing_data]. *)
Definition merge_timeline_data_fuel (fuel : nat) (h : gmap loc (list json))
    (existing_data new_data : option timeline_data)
  : option (gmap loc (list json) * option timeline_data) :=
  match existing_data, new_data with
  | None, _ => Some (h, new_data)
  | Some _, None => Some (h, existing_data)
  | Some ex, Some nw =>
      match edges_ref ex, edges_ref nw with
      | Some existing_edges, Some new_edges =>
          match h !! existing_edges, h !! new_edges with
          | Some es, Some _ =>
              match existing_ids_of es with
              | Ret existing_ids =>
                  match merge_loop fuel h existing_edges new_edges 0
                          existing_ids with
                  | Some (h', _) => Some (h', existing_data)
                  | None => None
                  end
              | Raise => Some (h, existing_data)
              end
          | _, _ => Some (h, existing_data)
          end
      | _, _ => Some (h, existing_data)
      end
  end.

(** The loop visits each index of [new_edges] once and then finds the end. *)
Definition merge_fuel (h : gmap loc (list json))
    (new_data : option timeline_data) : nat :=
  match new_data with
  | Some {| edges_ref := Some l |} =>
      match h !! l with
      | Some edges => S (length edges)
      | None => 1
      end
  | _ => 1
  end.

(** [merge_timeline_data]: the store after the call and the object returned.
    The default is never used ([merge_timeline_data_fuel_enough]). *)
Definition merge_timeline_data (h : gmap loc (list json))
    (existing_data new_data : option timeline_data)
  : gmap loc (list json) * option timeline_data :=
  match merge_timeline_data_fuel (merge_fuel h new_data) h
          existing_data new_data with
  | Some r => r
  | None => (h, existing_data)
  end.

(** The edges an object holds. *)
Definition edges_of (h : gmap loc (list json)) (d : option timeline_data)
  : option (list json) :=
  match d with
  | Some {| edges_ref := Some l |} => h !! l
  | _ => None
  end.

(** Pages merged one after the other into one accumulation. *)
Definition merge_all (h : gmap loc (list json))
    (accumulation : option timeline_data) (pages : list timeline_data)
  : gmap loc (list json) * option timeline_data :=
  foldl (fun s page => merge_timeline_data s.1 s.2 (Some page))
        (h, accumulation) pages.

(** What the loop appends, as a function of the ids seen and the new edges
    (it stops at an edge without a usable id). *)
Fixpoint fresh_edges (seen : gset ident) (edges : list json) : list json :=
  match edges with
  | [] => []
  | edge :: rest =>
      match edge_id edge with
      | Ret k =>
          if decide (k ∈ seen) then fresh_edges seen rest
          else edge :: fresh_edges ({[ k ]} ∪ seen) rest
      | Raise => []
      end
  end.

(** The ids of a list of edges, in order; edges without one are left out. *)
Fixpoint ids_of (edges : list json) : list ident :=
  match edges with
  | [] => []
  | edge :: rest =>
      match edge_id edge with
      | Ret k => k :: ids_of rest
      | Raise => ids_of rest
      end
  end.




(** ** Scroll controller *)

Definition MAX_SCROLL_ATTEMPTS : nat := 15.
Definition target_posts : nat := 50.

(** What the browser session delivers to one iteration of the loop:
    - [logs]: [driver.get_log("performance")], [Raise] when the call raises;
      an entry is [json.loads(log["message"])["message"]], [Raise] when that
      raises;
    - [bodies]: [Network.getResponseBody] followed by [json.loads], for a
      request id;
    - [scroll_ok]: the [scrollTo] script ran without raising. *)
Record batch := Batch {
  logs : outcome (list (outcome json));
  bodies : json -> outcome json;
  scroll_ok : bool
}.

Definition is_network_response (log_data : json) : outcome bool :=
  method ← Py.getitem log_data "method";
  a ← Py.contains "Network.response" method;
  if a : bool then Ret true
  else Py.contains "Network.responseReceived" method.

(** [get_network_responses]: an entry that raises is passed over. *)
Definition get_network_responses (b : batch) : outcome (list json) :=
  match logs b with
  | Raise => Raise
  | Ret entries =>
      Ret (omap (fun entry : outcome json =>
                   match entry with
                   | Ret log_data =>
                       match is_network_response log_data with
                       | Ret true => Some log_data
                       | _ => None
                       end
                   | Raise => None
                   end) entries)
  end.

(** The inner [try] block up to the classification of one event: [Ret None]
    when the event is not a GraphQL response or has no request id, [Raise]
    on any exception. *)
Definition inspect_response (b : batch) (response : json)
  : outcome (option graphql_data) :=
  has_params ← Py.contains "params" response;
  if has_params : bool then
    params ← Py.getitem response "params";
    has_response ← Py.contains "response" params;
    if has_response : bool then
      r ← Py.getitem params "response";
      response_url ← Py.get r "url" (JStr EmptyString);
      is_graphql ← Py.contains "graphql/query" response_url;
      if is_graphql : bool then
        request_id ← Py.get params "requestId" JNull;
        if negb (Py.truthy request_id) then Ret None
        else
          response_body ← bodies b request_id;
          new_data ← process_graphql_response response_body;
          Ret (Some new_data)
      else Ret None
    else Ret None
  else Ret None.

(** [combined_data]: the snapshot is a parsed value, the timeline an object
    whose edges are in the store. *)
Record combined := Combined {
  combined_profile : option json;
  combined_reel : option timeline_data
}.

(** One turn of [for response in responses]; [except Exception: continue]
    leaves the accumulation as it was. *)
Definition handle_response (b : batch)
    (s : gmap loc (list json) * combined) (response : json)
  : gmap loc (list json) * combined :=
  match inspect_response b response with
  | Ret (Some new_data) =>
      let cd :=
        if Py.truthy_opt (profile_info new_data)
        then {| combined_profile := profile_info new_data;
                combined_reel := combined_reel s.2 |}
        else s.2 in
      match reel_info new_data with
      | Some body =>
          if Py.truthy body then
            let loaded := load_timeline s.1 body in
            let merged :=
              merge_timeline_data loaded.1 (combined_reel cd)
                (Some loaded.2) in
            (merged.1, {| combined_profile := combined_profile cd;
                          combined_reel := merged.2 |})
          else (s.1, cd)
      | None => (s.1, cd)
      end
  | Ret None => s
  | Raise => s
  end.

(** [len(combined_data["reel_info"]["data"][timeline]["edges"])
     if combined_data["reel_info"] else 0]. *)
Definition count_posts (h : gmap loc (list json)) (cd : combined)
  : outcome nat :=
  match combined_reel cd with
  | None => Ret 0
  | Some t =>
      match edges_of h (Some t) with
      | Some edges => Ret (length edges)
      | None => Raise
      end
  end.

Record loop_state := LoopState {
  scroll_attempts : nat;
  posts_before : nat;
  no_new_posts_count : nat;
  combined_data : combined;
  store : gmap loc (list json)
}.

Definition initial_state (h : gmap loc (list json)) : loop_state :=
  {| scroll_attempts := 0; posts_before := 0; no_new_posts_count := 0;
     combined_data := {| combined_profile := None; combined_reel := None |};
     store := h |}.

Inductive stop_reason :=
| TargetReached
| Stagnation
| ScrollError
| MaxAttempts.

Inductive step_result :=
| Continue (st : loop_state)
| Break (why : stop_reason) (st : loop_state).

(** Reading and classifying the events of one iteration: [Raise] when
    [get_network_responses] raises, else the state with what the events
    merged. *)
Definition classify_events (b : batch) (st : loop_state)
  : outcome loop_state :=
  match get_network_responses b with
  | Raise => Raise
  | Ret responses =>
      let s :=
        foldl (handle_response b) (store st, combined_data st) responses in
      Ret {| scroll_attempts := scroll_attempts st;
             posts_before := posts_before st;
             no_new_posts_count := no_new_posts_count st;
             combined_data := s.2;
             store := s.1 |}
  end.

(** The scroll and the increment that end an iteration. *)
Definition scroll (b : batch) (st : loop_state) : step_result :=
  if scroll_ok b
  then Continue {| scroll_attempts := S (scroll_attempts st);
                   posts_before := posts_before st;
                   no_new_posts_count := no_new_posts_count st;
                   combined_data := combined_data st;
                   store := store st |}
  else Break ScrollError st.

(** The body of the [while] loop. The outer handler ([except Exception as
    scroll_error: ... break]) is the [ScrollError] exit; an exception in
    [get_network_responses] leaves the state as it was, one in the count
    keeps what the events merged. *)
Definition scroll_iteration (b : batch) (st : loop_state) : step_result :=
  match classify_events b st with
  | Raise => Break ScrollError st
  | Ret st1 =>
      match count_posts (store st1) (combined_data st1) with
      | Raise => Break ScrollError st1
      | Ret posts_after =>
          if target_posts <=? posts_after then Break TargetReached st1
          else if posts_after =? posts_before st1 then
            let st2 := {| scroll_attempts := scroll_attempts st1;
                          posts_before := posts_before st1;
                          no_new_posts_count := S (no_new_posts_count st1);
                          combined_data := combined_data st1;
                          store := store st1 |} in
            if (3 <=? no_new_posts_count st2) && (30 <=? posts_after)
            then Break Stagnation st2
            else scroll b st2
          else
            scroll b {| scroll_attempts := scroll_attempts st1;
                        posts_before := posts_after;
                        no_new_posts_count := 0;
                        combined_data := combined_data st1;
                        store := store st1 |}
      end
  end.

(** [while scroll_attempts < MAX_SCROLL_ATTEMPTS]: [env k] is what the
    session delivers to the iteration that follows [k] earlier ones. The
    result is the reason for leaving the loop, the state then and the
    number of iterations run; [None] is an exhausted [fuel]. *)
Fixpoint scroll_loop (fuel : nat) (env : nat -> batch) (k : nat)
    (st : loop_state) : option (stop_reason * loop_state * nat) :=
  match fuel with
  | O => None
  | S fuel' =>
      if scroll_attempts st <? MAX_SCROLL_ATTEMPTS then
        match scroll_iteration (env k) st with
        | Break why st' => Some (why, st', S k)
        | Continue st' => scroll_loop fuel' env (S k) st'
        end
      else Some (MaxAttempts, st, k)
  end.

(** ** Work list, done-log and per-item results *)

Record stats := Stats {
  total : nat;
  saved : nat;
  failed : nat;
  pictures_downloaded : nat
}.

(** A row of [input.csv] as pandas holds it: the [url] column and the
    other columns. *)
Record row := Row {
  url : string;
  other_columns : list string
}.

(** The state the workers share and the files they touch:
    - [done_file]: the lines of [inputdone.csv], [None] when it does not
      exist;
    - [input_file]: the rows of [input.csv], [None] when [pd.read_csv]
      or the [url] column raises;
    - [output_files]: what was written under [output/], by path. *)
Record world := World {
  no_response_links : list string;
  run_stats : stats;
  done_urls : list string;
  done_file : option (list string);
  input_file : option (list row);
  output_files : list (string * json)
}.

(** [remove_url_from_input_file]: the rows whose [url] differs are written
    back; [False] and no change when the file cannot be read. *)
Definition remove_url_from_input_file (u : string) (w : world)
  : world * bool :=
  match input_file w with
  | Some input_df =>
      let input_df := filter (fun r => url r <> u) input_df in
      ({| no_response_links := no_response_links w;
          run_stats := run_stats w;
          done_urls := done_urls w;
          done_file := done_file w;
          input_file := Some input_df;
          output_files := output_files w |}, true)
  | None => (w, false)
  end.

(** [save_url_to_done_file]: the header is written when the file does not
    exist, then the line is appended, then the row leaves the input file.
    Writing to the done file is taken to succeed, so the result is [True]. *)
Definition save_url_to_done_file (u : string) (w : world) : world * bool :=
  let existing :=
    match done_file w with
    | Some lines => lines
    | None => ["url"]
    end in
  let w1 := {| no_response_links := no_response_links w;
               run_stats := run_stats w;
               done_urls := done_urls w;
               done_file := Some (existing ++ [u]);
               input_file := input_file w;
               output_files := output_files w |} in
  ((remove_url_from_input_file u w1).1, true).

(** Python's [str.strip()] whitespace, for code points below 256. *)
Definition is_space (c : ascii) : bool :=
  let n := nat_of_ascii c in
  ((9 <=? n) && (n <=? 13)) || ((28 <=? n) && (n <=? 32))
  || (n =? 133) || (n =? 160).

Definition is_slash (c : ascii) : bool := Ascii.eqb c "/"%char.

Fixpoint lstrip (p : ascii -> bool) (s : string) : string :=
  match s with
  | EmptyString => EmptyString
  | String c s' => if p c then lstrip p s' else s
  end.

Fixpoint rstrip (p : ascii -> bool) (s : string) : string :=
  match s with
  | EmptyString => EmptyString
  | String c s' =>
      match rstrip p s' with
      | EmptyString => if p c then EmptyString else String c EmptyString
      | r => String c r
      end
  end.

(** [url.strip().rstrip('/')]. *)
Definition normalize (u : string) : string :=
  rstrip is_slash (rstrip is_space (lstrip is_space u)).

(** [pd.read_csv(DONE_FILE)["url"].tolist()] on a file of one column: the
    first line is the header, empty lines are passed over. *)
Definition read_url_column (lines : list string) : outcome (list string) :=
  match lines with
  | header :: rest =>
      if String.eqb header "url"
      then Ret (filter (fun l => l <> EmptyString) rest)
      else Raise
  | [] => Raise
  end.

(** The list [done_urls] of [load_urls]: empty when the done file does not
    exist or cannot be read. *)
Definition load_done_urls (w : world) : list string :=
  match done_file w with
  | Some lines =>
      match read_url_column lines with
      | Ret done => map normalize done
      | Raise => []
      end
  | None => []
  end.

(** [load_urls]: the urls to process and the completed ones. *)
Definition load_urls (w : world) : list string * list string :=
  match input_file w with
  | None => ([], [])
  | Some df =>
      let input_urls := map url df in
      let done := load_done_urls w in
      let normalized_input := map normalize input_urls in
      let normalized_done : gset string := list_to_set done in
      let urls_to_process :=
        omap (fun iu : nat * string =>
                match normalized_input !! iu.1 with
                | Some norm_url =>
                    if decide (norm_url ∉ normalized_done)
                    then Some iu.2 else None
                | None => None
                end)
             (imap (fun i u => (i, u)) input_urls) in
      (urls_to_process, done)
  end.

(** The completed set the spec speaks of: the normalized entries of the
    done file. *)
Definition completed_set (w : world) : gset string :=
  list_to_set (load_done_urls w).

Section SaveData.

Variable fl : Q -> Q.

(** [base_wait] is the random draw of the rate limiter; [picture_ok] is
    the result of [download_profile_picture]. *)
Variables (base_wait : Q) (picture_ok : bool).

Definition write_file (path : string) (content : json) (w : world) : world :=
  {| no_response_links := no_response_links w;
     run_stats := run_stats w;
     done_urls := done_urls w;
     done_file := done_file w;
     input_file := input_file w;
     output_files := (path, content) :: output_files w |}.

Definition record_failure (u : string) (w : world) : world :=
  {| no_response_links := no_response_links w ++ [u];
     run_stats := {| total := total (run_stats w);
                     saved := saved (run_stats w);
                     failed := S (failed (run_stats w));
                     pictures_downloaded :=
                       pictures_downloaded (run_stats w) |};
     done_urls := done_urls w;
     done_file := done_file w;
     input_file := input_file w;
     output_files := output_files w |}.

Definition record_saved (w : world) : world :=
  {| no_response_links := no_response_links w;
     run_stats := {| total := total (run_stats w);
                     saved := S (saved (run_stats w));
                     failed := failed (run_stats w);
                     pictures_downloaded :=
                       if picture_ok
                       then S (pictures_downloaded (run_stats w))
                       else pictures_downloaded (run_stats w) |};
     done_urls := done_urls w;
     done_file := done_file w;
     input_file := input_file w;
     output_files := output_files w |}.

Definition append_done_url (u : string) (w : world) : world :=
  {| no_response_links := no_response_links w;
     run_stats := run_stats w;
     done_urls := done_urls w ++ [u];
     done_file := done_file w;
     input_file := input_file w;
     output_files := output_files w |}.

(** The test that opens [save_data]. *)
Definition private_or_empty (data : graphql_data) : bool :=
  Py.truthy (is_private_profile (profile_info data))
  || negb (Py.truthy_opt (profile_info data)
           || Py.truthy_opt (reel_info data)).

(** [save_data]: the world after the call and its result, [Raise] when the
    exception of the wait leaves the function. *)
Definition save_data (username : string) (data : graphql_data)
    (u : string) (w : world) : world * outcome bool :=
  if private_or_empty data then (record_failure u w, Ret false)
  else
    let user_dir := "output/" +:+ username in
    let s1 :=
      match profile_info data with
      | Some p =>
          if Py.truthy p
          then (record_saved (write_file (user_dir +:+ "/userInfo.json") p w),
                true)
          else (w, false)
      | None => (w, false)
      end in
    let w2 :=
      match reel_info data with
      | Some r =>
          if Py.truthy r
          then write_file (user_dir +:+ "/postInfo.json") r s1.1
          else s1.1
      | None => s1.1
      end in
    match (wait_time ← calculate_dynamic_wait_time fl base_wait
                          (profile_info data);
           sleep wait_time) with
    | Raise => (w2, Raise)
    | Ret _ =>
        if s1.2 : bool
        then ((save_url_to_done_file u (append_done_url u w2)).1, Ret true)
        else (w2, Ret false)
    end.

(** The part of [worker_thread] that follows [scrape_profile]: an exception
    that leaves [save_data] records a failure. *)
Definition worker_save (username : string) (data : graphql_data)
    (u : string) (w : world) : world :=
  match save_data username data u w with
  | (w', Ret _) => w'
  | (w', Raise) => record_failure u w'
  end.

End SaveData.

(** The set of the ids of a list of edges. *)
Definition ids_set (edges : list json) : gset ident :=
  list_to_set (ids_of edges).

(** The store that [merge_timeline_data] leaves when both arguments are
    objects: nothing changes when a path or an id raises before the loop or
    when both names are one list; else the new edges are appended. *)
Definition merged_store (h : gmap loc (list json)) (ex nw : timeline_data)
  : gmap loc (list json) :=
  match edges_ref ex, edges_ref nw with
  | Some le, Some ln =>
      match h !! le, h !! ln with
      | Some es, Some ns =>
          match existing_ids_of es with
          | Ret ids =>
              if decide (le = ln) then h
              else <[le := es ++ fresh_edges ids ns]> h
          | Raise => h
          end
      | _, _ => h
      end
  | _, _ => h
  end.

(** ** Sample payloads *)

Module Sample.

(** A timeline record [{"node": {"id": i, "shortcode": code}}]. *)
Definition edge (i : Z) (code : string) : json :=
  JDict [("node", JDict [("id", JInt i); ("shortcode", JStr code)])].

(** A timeline body with the given records. *)
Definition timeline_body (edges : list json) : json :=
  JDict [("data",
          JDict [(TARGET_QUERIES.timeline, JDict [("edges", JList edges)])])].

(** The two pages [[{id:1},{id:2}]] and [[{id:2},{id:3}]], loaded one after
    the other into an empty store. *)
Definition page12 := load_timeline ∅ (timeline_body [edge 1 "a"; edge 2 "b"]).
Definition page23 :=
  load_timeline page12.1 (timeline_body [edge 2 "c"; edge 3 "d"]).


End Sample.

Module SampleProfile.

(** A public snapshot with 250000 followers and 100 posts. *)
Definition user_data : json :=
  JDict [("is_private", JBool false);
         ("edge_followed_by", JDict [("count", JInt 250000)]);
         ("edge_owner_to_timeline_media", JDict [("count", JInt 100)])].

Definition data : json := JDict [(TARGET_QUERIES.profile, user_data)].

Definition snapshot : json := JDict [("data", data)].

(** A private snapshot. *)
Definition private_snapshot : json :=
  JDict [("data",
          JDict [(TARGET_QUERIES.profile, JDict [("is_private", JBool true)])])].

(** Exact arithmetic in the place of float rounding. *)
Definition exact (q : Q) : Q := q.

Definition empty_stats : stats :=
  {| total := 0; saved := 0; failed := 0; pictures_downloaded := 0 |}.

(** A run with three urls to process and no done file yet. *)
Definition world0 : world :=
  {| no_response_links := [];
     run_stats := empty_stats;
     done_urls := [];
     done_file := None;
     input_file := Some [ {| url := "https://www.instagram.com/a/";
                             other_columns := [] |};
                          {| url := "https://www.instagram.com/b";
                             other_columns := [] |};
                          {| url := " https://www.instagram.com/c/ ";
                             other_columns := [] |} ];
     output_files := [] |}.

End SampleProfile.

Module SampleRun.

(** A hundred urls, the first ten of which are in the done file. *)
Definition profile_url (i : nat) : string :=
  "https://www.instagram.com/user"
  +:+ String (ascii_of_nat (48 + i / 10))
        (String (ascii_of_nat (48 + i mod 10)) "/").

Definition urls : list string := map profile_url (seq 0 100).

Definition completed : list string := take 10 urls.


(** The first run: the hundred urls and no done file. *)
Definition first_run : world :=
  {| no_response_links := [];
     run_stats := SampleProfile.empty_stats;
     done_urls := [];
     done_file := None;
     input_file := Some (map (fun u => {| url := u; other_columns := [] |})
                           urls);
     output_files := [] |}.

(** The world after the urls of [done] were marked complete in turn. *)
Definition mark_complete (done : list string) (w : world) : world :=
  foldl (fun w u => (save_url_to_done_file u w).1) w done.

End SampleRun.

Module SampleSession.

(** A captured [Network.responseReceived] event for a GraphQL request. *)
Definition graphql_event (request_id : string) : json :=
  JDict [("method", JStr "Network.responseReceived");
         ("params",
          JDict [("requestId", JStr request_id);
                 ("response",
                  JDict [("url",
                          JStr "https://www.instagram.com/graphql/query")])])].

(** An iteration in which nothing was captured. *)
Definition quiet : batch :=
  {| logs := Ret []; bodies := fun _ => Raise; scroll_ok := true |}.

(** An iteration in which reading the log raises. *)
Definition unreadable : batch :=
  {| logs := Raise; bodies := fun _ => Raise; scroll_ok := true |}.

(** An iteration with two events: the body of request 1 cannot be fetched,
    the body of request 2 is a timeline page. *)
Definition one_bad_body : batch :=
  {| logs := Ret [Ret (graphql_event "1"); Ret (graphql_event "2")];
     bodies := fun request_id =>
       match request_id with
       | JStr "2" =>
           Ret (Sample.timeline_body [Sample.edge 1 "a"; Sample.edge 2 "b"])
       | _ => Raise
       end;
     scroll_ok := true |}.

(** Thirty records in the accumulation, seen unchanged twice already, at
    the last iteration the budget allows. *)
Definition thirty :=
  load_timeline ∅
    (Sample.timeline_body
       (map (fun i => Sample.edge (Z.of_nat i) "p") (seq 0 30))).

Definition stalled : loop_state :=
  {| scroll_attempts := 14;
     posts_before := 30;
     no_new_posts_count := 2;
     combined_data := {| combined_profile := None;
                         combined_reel := Some thirty.2 |};
     store := thirty.1 |}.

End SampleSession.

Module SampleSession2.

(** The iteration [SampleSession.one_bad_body] without its first event. *)
Definition good_body_only : batch :=
  {| logs := Ret [Ret (SampleSession.graphql_event "2")];
     bodies := bodies SampleSession.one_bad_body;
     scroll_ok := true |}.

End SampleSession2.

(** ** User names *)

(** [s.split(sep)] for a separator of one character: the segments between
    the separators, one for the empty string. *)
Fixpoint split (sep : ascii) (s : string) : list string :=
  match s with
  | EmptyString => [EmptyString]
  | String c s' =>
      match split sep s' with
      | seg :: rest =>
          if Ascii.eqb c sep then EmptyString :: seg :: rest
          else String c seg :: rest
      | [] => [String c EmptyString]
      end
  end.

(** [get_username]: [url.strip().rstrip('/')] is [normalize]; then the last
    segment between slashes, up to its first question mark. *)
Definition get_username (u : string) : string :=
  let u := normalize u in
  let username := List.last (split "/" u) EmptyString in
  List.hd EmptyString (split "?" username).

(** [c in s] for a character. *)
Fixpoint has_char (c : ascii) (s : string) : bool :=
  match s with
  | EmptyString => false
  | String a s' => Ascii.eqb a c || has_char c s'
  end.

(** Every character of [s] satisfies [p]. *)
Fixpoint all_chars (p : ascii -> bool) (s : string) : bool :=
  match s with
  | EmptyString => true
  | String a s' => p a && all_chars p s'
  end.

(** Python's [str.lower()], for code points below 256. *)
Definition lower_char (c : ascii) : ascii :=
  let n := nat_of_ascii c in
  if ((65 <=? n) && (n <=? 90))
     || ((192 <=? n) && (n <=? 222) && negb (n =? 215))
  then ascii_of_nat (n + 32)
  else c.

Fixpoint lower (s : string) : string :=
  match s with
  | EmptyString => EmptyString
  | String c s' => String (lower_char c) (lower s')
  end.

(** ** Worker pool size *)

Definition MAX_WORKERS : Z := 3.

(** [int(x)] on a float: truncation towards zero. *)
Definition py_int (x : Q) : Z := Z.quot (Qnum x) (Zpos (Qden x)).

Section WorkerCount.

Variable fl : Q -> Q.

(** [get_optimal_worker_count]: [force] is [FORCE_MAX_WORKERS] ([True] in
    the source), [physical_cpus] is [psutil.cpu_count(logical=False)]
    ([None] when it is not known) and [available] is
    [psutil.virtual_memory().available], in bytes. The literal [1.2] is the
    float nearest to 6/5. *)
Definition get_optimal_worker_count (force : bool)
    (physical_cpus : option Z) (available : Z) : Z :=
  if force then MAX_WORKERS
  else
    let cpu_count :=
      match physical_cpus with
      | Some n => if (n =? 0)%Z then 2%Z else n
      | None => 2%Z
      end in
    let available_memory_gb := true_div fl available (1024 ^ 3) in
    let memory_based_limit :=
      Z.max 1 (py_int (fl (available_memory_gb / fl (6 # 5)))) in
    let cpu_based_limit := Z.max 1 (cpu_count - 1) in
    let browser_count := Z.min memory_based_limit cpu_based_limit in
    Z.min MAX_WORKERS browser_count.

End WorkerCount.

(** ** Account type *)

Definition business_keywords : list string :=
  ["ceo"; "founder"; "business"; "company"; "brand"; "shop"; "store";
   "service"; "contact"; "email"; "dm for"; "inquiries"].

Definition creator_keywords : list string :=
  ["creator"; "influencer"; "content"; "youtube"; "tiktok"; "collab"; "pr";
   "brand partnerships"].

(** [sum(1 for keyword in keywords if keyword in bio)]. *)
Definition keyword_score (keywords : list string) (bio : string) : nat :=
  length (filter (fun keyword => Py.is_substring keyword bio = true) keywords).

(** [lower()] of the biography, the empty string when there is none: only a
    string has [lower]. *)
Definition biography_lower (user : json) : outcome string :=
  b ← Py.get user "biography" (JStr EmptyString);
  match b with
  | JStr s => Ret (lower s)
  | _ => Raise
  end.

(** [detect_account_type]; its guard is the negation of the one of
    [calculate_dynamic_wait_time]. *)
Definition detect_account_type (profile_data : option json)
  : outcome string :=
  guard ← has_user profile_data;
  if guard : bool then
    match profile_data with
    | Some pd =>
        d ← Py.getitem pd "data";
        user ← Py.getitem d "user";
        is_business_account ← Py.get user "is_business_account" (JBool false);
        business_category ←
          Py.get user "business_category_name" (JStr EmptyString);
        contact_phone ←
          Py.get user "business_phone_number" (JStr EmptyString);
        contact_email ← Py.get user "business_email" (JStr EmptyString);
        is_professional_account ←
          Py.get user "is_professional_account" (JBool false);
        bio ← biography_lower user;
        let bio_business_score := keyword_score business_keywords bio in
        let bio_creator_score := keyword_score creator_keywords bio in
        if Py.truthy is_business_account || Py.truthy business_category
           || Py.truthy contact_phone || Py.truthy contact_email
           || (2 <=? bio_business_score)
        then Ret "business"
        else if Py.truthy is_professional_account
                || (2 <=? bio_creator_score)
        then Ret "creator"
        else Ret "personal"
    | None => Ret "unknown"
    end
  else Ret "unknown".

(** ** Profile pictures *)

(** [profile_info["data"]["user"].get("profile_pic_url_hd") or
    profile_info["data"]["user"]["profile_pic_url"]]. *)
Definition profile_pic_url (profile_info : json) : outcome json :=
  d ← Py.getitem profile_info "data";
  user ← Py.getitem d "user";
  hd_url ← Py.get user "profile_pic_url_hd" JNull;
  if Py.truthy hd_url then Ret hd_url
  else
    d' ← Py.getitem profile_info "data";
    user' ← Py.getitem d' "user";
    Py.getitem user' "profile_pic_url".

(** [os.path.join(a, b)] on POSIX paths. *)
Definition path_join (a b : string) : string :=
  match b with
  | String "/" _ => b
  | _ =>
      match a with
      | EmptyString => b
      | _ =>
          if Py.is_substring "/" (substring (String.length a - 1) 1 a)
          then a +:+ b
          else a +:+ "/" +:+ b
      end
  end.

(** What [download_profile_picture] has done when it returns: its result,
    the number of requests sent and the file written, if any. *)
Record download := Download {
  downloaded : bool;
  requests_sent : nat;
  picture_file : option string
}.

(** The loop [for attempt in range(3)], from attempt [attempt] with
    [remaining] attempts left. [http attempt] is the status code of
    [requests.get], [Raise] when the request raises; [lower] on a url that
    is not a string raises too, and the attempt is lost. *)
Fixpoint download_attempts (http : nat -> outcome Z) (username : string)
    (pic_url : json) (save_dir : string) (remaining attempt : nat)
  : download :=
  match remaining with
  | O => {| downloaded := false; requests_sent := attempt;
            picture_file := None |}
  | S remaining' =>
      let retry :=
        download_attempts http username pic_url save_dir remaining'
          (S attempt) in
      match http attempt with
      | Ret status_code =>
          if (status_code =? 200)%Z then
            match pic_url with
            | JStr s =>
                let ext :=
                  if Py.is_substring ".jpg" (lower s) then "jpg"
                  else "png" in
                {| downloaded := true; requests_sent := S attempt;
                   picture_file :=
                     Some (path_join save_dir (username +:+ "." +:+ ext)) |}
            | _ => retry
            end
          else retry
      | Raise => retry
      end
  end.

(** [download_profile_picture]: every exception ends in [return False].
    Writing the file is taken to succeed. *)
Definition download_profile_picture (http : nat -> outcome Z)
    (username : string) (profile_info : json) (save_dir : string)
  : download :=
  match profile_pic_url profile_info with
  | Ret pic_url =>
      if Py.truthy pic_url
      then download_attempts http username pic_url save_dir 3 0
      else {| downloaded := false; requests_sent := 0;
              picture_file := None |}
  | Raise => {| downloaded := false; requests_sent := 0;
                picture_file := None |}
  end.

(** ** Post links *)

(** [d[k] = v] on a dict: the value of an existing key is replaced where it
    is, a new key comes last. *)
Fixpoint dict_set (k : string) (v : json) (d : list (string * json))
  : list (string * json) :=
  match d with
  | [] => [(k, v)]
  | (k', v') :: d' =>
      if String.eqb k k' then (k, v) :: d'
      else (k', v') :: dict_set k v d'
  end.

Section PostLinks.

(** The text that an f-string puts for a value that is not a string. *)
Variable format : json -> string.

Definition format_value (x : json) : string :=
  match x with
  | JStr s => s
  | _ => format x
  end.

(** One turn of the loop that ends [scrape_profile]: the node of the edge
    gets [post_url] and [post_code] when it has a truthy [shortcode]. A node
    that is missing is a new empty dict, which is not stored in the edge.
    [Raise] is the [AttributeError] of [get] on what is not a dict. *)
Definition add_post_link (edge : json) : outcome json :=
  match edge with
  | JDict fields =>
      match Py.assoc "node" fields with
      | Some node =>
          shortcode ← Py.get node "shortcode" (JStr EmptyString);
          if Py.truthy shortcode then
            match node with
            | JDict node_fields =>
                let node_fields :=
                  dict_set "post_url"
                    (JStr ("https://www.instagram.com/p/"
                           +:+ format_value shortcode +:+ "/"))
                    node_fields in
                let node_fields :=
                  dict_set "post_code" shortcode node_fields in
                Ret (JDict (dict_set "node" (JDict node_fields) fields))
            | _ => Raise
            end
          else Ret edge
      | None => Ret edge
      end
  | _ => Raise
  end.

(** The loop over the edges; the first edge that raises ends it. *)
Fixpoint add_post_links (edges : list json) : outcome (list json) :=
  match edges with
  | [] => Ret []
  | edge :: rest =>
      edge' ← add_post_link edge;
      rest' ← add_post_links rest;
      Ret (edge' :: rest')
  end.

End PostLinks.

(** ** Worker *)

Section Worker.

Variable fl : Q -> Q.

(** What the session and the network give for a url: the result of
    [scrape_profile], the draw of the rate limiter and the result of
    [download_profile_picture]. *)
Variables (session : string -> graphql_data) (draw : string -> Q)
          (picture : string -> bool).

(** The wait of [save_data] for an item goes through. *)
Definition wait_ok (u : string) : bool :=
  match (wait_time ← calculate_dynamic_wait_time fl (draw u)
                        (profile_info (session u));
         sleep wait_time) with
  | Ret _ => true
  | Raise => false
  end.

(** The item is one that [save_data] marks complete. *)
Definition item_ok (u : string) : bool :=
  negb (private_or_empty (session u)) && wait_ok u.

(** One turn of the loop of [worker_thread], for the url taken from the
    queue. *)
Definition process_url (u : string) (w : world) : world :=
  worker_save fl (draw u) (picture u) (get_username u) (session u) u w.

(** [worker_thread], for a worker that has the queue to itself: nothing is
    taken from the queue when the browser cannot be created. The result is
    the world, what is left in the queue and the count of the progress
    bar. *)
Definition worker_thread (driver_ok : bool) (queue : list string)
    (w : world) : world * list string * nat :=
  if driver_ok
  then (foldl (fun w u => process_url u w) w queue, [], length queue)
  else (w, queue, 0).

End Worker.

(** ** Queue of a run *)

Definition MAX_TEST_PROFILES : nat := 5.

(** The urls that [main] puts in the queue: [test_mode] is [TEST_MODE]
    ([False] in the source). *)
Definition queued_urls (test_mode : bool) (w : world) : list string :=
  let urls_to_process := (load_urls w).1 in
  if test_mode && (MAX_TEST_PROFILES <? length urls_to_process)
  then take MAX_TEST_PROFILES urls_to_process
  else urls_to_process.

(** The urls of the rows of the input file; none when it cannot be read. *)
Definition input_urls (w : world) : list string :=
  match input_file w with
  | Some rows => map url rows
  | None => []
  end.

Module SampleWorker.

(** A snapshot whose follower field is null: the wait of the rate limiter
    raises on it. *)
Definition odd_snapshot : json :=
  JDict [("data",
          JDict [(TARGET_QUERIES.profile,
                  JDict [("is_private", JBool false);
                         ("edge_followed_by", JNull)])])].

(** What the session gives for the three urls of [SampleProfile.world0]: a
    private profile, a public one and nothing at all. *)
Definition session (u : string) : graphql_data :=
  if String.eqb u "https://www.instagram.com/a/"
  then {| profile_info := Some SampleProfile.private_snapshot;
          reel_info := None |}
  else if String.eqb u "https://www.instagram.com/b"
  then {| profile_info := Some SampleProfile.snapshot; reel_info := None |}
  else {| profile_info := None; reel_info := None |}.

Definition draw (u : string) : Q := 3 # 2.

Definition picture (u : string) : bool := true.

(** The second request answers 200. *)
Definition http (attempt : nat) : outcome Z :=
  if attempt =? 1 then Ret 200%Z else Ret 503%Z.

Definition with_picture : json :=
  JDict [("data",
          JDict [(TARGET_QUERIES.profile,
                  JDict [("profile_pic_url",
                          JStr "https://cdn.example.com/p/b.JPG?x=1")])])].

End SampleWorker.

Module SampleErrors.

(** The body of a GraphQL error answer. *)
Definition error_body : json :=
  JDict [("data", JNull);
         ("errors", JList [JDict [("message", JStr "execution error")]])].

(** A session that answers every body request with it. *)
Definition session : batch :=
  {| logs := Ret [Ret (SampleSession.graphql_event "1");
                  Ret (SampleSession.graphql_event "2")];
     bodies := fun _ => Ret error_body;
     scroll_ok := true |}.

End SampleErrors.

Module SamplePosts.

(** Python's text for the numbers that stand for a shortcode here. *)
Definition format (x : json) : string :=
  match x with
  | JInt 7 => "7"
  | _ => EmptyString
  end.

Definition edges : list json :=
  [JDict [("node", JDict [("id", JStr "1"); ("shortcode", JStr "Cabc")])];
   JDict [("node", JDict [("id", JStr "2")])];
   JDict [("node", JDict [("id", JStr "3"); ("shortcode", JInt 7);
                          ("post_code", JStr "old")])]].

End SamplePosts.

Module SampleTarget.

(** Fifty records in the accumulation, at the last attempt, with a
    stagnation counter that has long passed 3. *)
Definition fifty :=
  load_timeline ∅
    (Sample.timeline_body
       (map (fun i => Sample.edge (Z.of_nat i) "p") (seq 0 50))).

Definition reached : loop_state :=
  {| scroll_attempts := 14;
     posts_before := 50;
     no_new_posts_count := 7;
     combined_data := {| combined_profile := None;
                         combined_reel := Some fifty.2 |};
     store := fifty.1 |}.

End SampleTarget.

(** * Properties *)

(** ** Merge engine *)

#[local] Set Warnings "-clear-no-such-hyp".

Section MergeFacts.

Implicit Types (h : gmap loc (list json)) (edges es ns : list json).
Implicit Types (seen ids : gset ident).

Lemma existing_ids_of_Ret es ids :
  existing_ids_of es = Ret ids ->
  ids = ids_set es /\ Forall (fun edge => edge_id edge <> Raise) es.
Proof.
  revert ids. induction es as [|e es IH]; intros ids; simpl.
  - intros [= <-]. split; [reflexivity | constructor].
  - unfold ids_set. simpl. destruct (edge_id e) as [k|] eqn:Hk; simpl; [|discriminate].
    destruct (existing_ids_of es) as [ids'|]; simpl; [|discriminate].
    intros [= <-]. destruct (IH ids' eq_refl) as [-> Hall].
    split; [reflexivity|]. constructor; [congruence | exact Hall].
Qed.

Lemma existing_ids_of_Forall es :
  Forall (fun edge => edge_id edge <> Raise) es ->
  existing_ids_of es = Ret (ids_set es).
Proof.
  induction 1 as [|e es He _ IH]; [reflexivity|].
  simpl. unfold ids_set. simpl.
  destruct (edge_id e) as [k|]; [|congruence]. simpl.
  rewrite IH. reflexivity.
Qed.

Lemma ids_set_app es ns : ids_set (es ++ ns) = ids_set es ∪ ids_set ns.
Proof.
  unfold ids_set. induction es as [|e es IH]; simpl.
  - set_solver.
  - destruct (edge_id e); simpl; rewrite IH; set_solver.
Qed.

Lemma elem_of_ids_set edge k es :
  edge ∈ es -> edge_id edge = Ret k -> k ∈ ids_set es.
Proof.
  unfold ids_set. induction 1 as [e es|e e' es _ IH]; intros Hk; simpl.
  - rewrite Hk. set_solver.
  - destruct (edge_id e'); set_solver.
Qed.

Lemma fresh_edges_have_id seen ns :
  Forall (fun edge => edge_id edge <> Raise) (fresh_edges seen ns).
Proof.
  revert seen. induction ns as [|e ns IH]; intros seen; simpl; [constructor|].
  destruct (edge_id e) as [k|] eqn:Hk; [|constructor].
  destruct (decide (k ∈ seen)); [apply IH|].
  constructor; [congruence | apply IH].
Qed.

Lemma fresh_edges_sublist seen ns : fresh_edges seen ns `sublist_of` ns.
Proof.
  revert seen. induction ns as [|e ns IH]; intros seen; simpl; [done|].
  destruct (edge_id e) as [k|]; [|apply sublist_nil_l].
  destruct (decide (k ∈ seen)); [apply sublist_cons | apply sublist_skip];
    apply IH.
Qed.

Lemma fresh_edges_seen seen ns :
  ids_set ns ⊆ seen -> fresh_edges seen ns = [].
Proof.
  unfold ids_set. induction ns as [|e ns IH]; simpl; [reflexivity|].
  destruct (edge_id e) as [k|]; [|reflexivity]. simpl. intros Hsub.
  destruct (decide (k ∈ seen)); [apply IH; set_solver | set_solver].
Qed.

(** Merging again what was just merged appends nothing, whatever the
    edges are. *)
Lemma fresh_edges_again ns seen seen' :
  seen ∪ ids_set (fresh_edges seen ns) ⊆ seen' ->
  fresh_edges seen' ns = [].
Proof.
  revert seen seen'. induction ns as [|e ns IH]; intros seen seen'; simpl;
    [reflexivity|].
  destruct (edge_id e) as [k|] eqn:Hk; [|reflexivity].
  destruct (decide (k ∈ seen)) as [Hin|Hout].
  - intros Hsub. destruct (decide (k ∈ seen')); [|set_solver].
    apply (IH seen). exact Hsub.
  - unfold ids_set. simpl. rewrite Hk. simpl. intros Hsub.
    destruct (decide (k ∈ seen')); [|set_solver].
    apply (IH ({[k]} ∪ seen)). unfold ids_set. set_solver.
Qed.



Lemma append_lookup h l es edge :
  h !! l = Some es -> append h l edge = <[l := es ++ [edge]]> h.
Proof.
  intros Hl. unfold append. apply map_eq. intros j.
  destruct (decide (l = j)) as [<-|Hne].
  - by rewrite lookup_alter_eq, lookup_insert_eq, Hl.
  - by rewrite lookup_alter_ne, lookup_insert_ne.
Qed.

(** The loop on two lists: it appends [fresh_edges] of what is left. *)
Lemma merge_loop_distinct fuel h le ln i ids es ns :
  le <> ln -> h !! le = Some es -> h !! ln = Some ns ->
  length ns - i < fuel ->
  exists o, merge_loop fuel h le ln i ids =
            Some (<[le := es ++ fresh_edges ids (drop i ns)]> h, o).
Proof.
  intros Hne. revert h i ids es.
  induction fuel as [|fuel IH]; intros h i ids es Hle Hln Hfuel; [lia|].
  simpl. rewrite Hln.
  destruct (ns !! i) as [edge|] eqn:Hi.
  - rewrite (drop_S _ _ _ Hi). simpl.
    assert (i < length ns) by (eapply lookup_lt_Some; eauto).
    destruct (edge_id edge) as [k|] eqn:Hk.
    + destruct (decide (k ∈ ids)).
      * apply IH; [done | done | lia].
      * rewrite (append_lookup _ _ _ _ Hle).
        destruct (IH (<[le := es ++ [edge]]> h) (S i) ({[k]} ∪ ids)
                    (es ++ [edge])) as [o Ho].
        { by rewrite lookup_insert_eq. }
        { by rewrite lookup_insert_ne. }
        { lia. }
        exists o. rewrite Ho, insert_insert_eq, <- app_assoc. reflexivity.
    + exists Raise. rewrite app_nil_r, insert_id; done.
  - exists (Ret tt). rewrite drop_ge by (by apply lookup_ge_None).
    simpl. rewrite app_nil_r, insert_id; done.
Qed.

(** The loop on one list under two names: every id is in the set, so no
    edge is appended and the list keeps its length. *)
Lemma merge_loop_alias fuel h l i ids es :
  h !! l = Some es ->
  Forall (fun edge => edge_id edge <> Raise) es -> ids_set es ⊆ ids ->
  length es - i < fuel ->
  merge_loop fuel h l l i ids = Some (h, Ret tt).
Proof.
  intros Hl Hall Hsub. revert i.
  induction fuel as [|fuel IH]; intros i Hfuel; [lia|].
  simpl. rewrite Hl.
  destruct (es !! i) as [edge|] eqn:Hi; [|reflexivity].
  assert (i < length es) by (eapply lookup_lt_Some; eauto).
  assert (edge ∈ es) as Hin by (apply list_elem_of_lookup; eauto).
  destruct (edge_id edge) as [k|] eqn:Hk.
  - destruct (decide (k ∈ ids)) as [|Hout]; [apply IH; lia|].
    exfalso. apply Hout, Hsub. eapply elem_of_ids_set; eauto.
  - exfalso. rewrite Forall_forall in Hall. by apply (Hall edge).
Qed.

(** Enough fuel: [merge_timeline_data] is the result of the loop, and it is
    the pure [merged_store]. *)
Lemma merge_timeline_data_fuel_enough fuel h existing_data new_data :
  merge_fuel h new_data <= fuel ->
  merge_timeline_data_fuel fuel h existing_data new_data =
  Some (match existing_data, new_data with
        | None, _ => (h, new_data)
        | Some _, None => (h, existing_data)
        | Some ex, Some nw => (merged_store h ex nw, existing_data)
        end).
Proof.
  intros Hfuel. destruct existing_data as [ex|], new_data as [nw|]; try done.
  unfold merge_timeline_data_fuel, merged_store.
  destruct ex as [[le|]], nw as [[ln|]]; simpl in *; try done.
  destruct (h !! le) as [es|] eqn:Hle; [|done].
  destruct (h !! ln) as [ns|] eqn:Hln; [|done].
  destruct (existing_ids_of es) as [ids|] eqn:Hids; [|done].
  destruct (existing_ids_of_Ret _ _ Hids) as [-> Hall].
  destruct (decide (le = ln)) as [->|Hne].
  - assert (ns = es) as -> by congruence.
    rewrite (merge_loop_alias fuel h ln 0 (ids_set es) es); try done. lia.
  - destruct (merge_loop_distinct fuel h le ln 0 (ids_set es) es ns)
      as [o Ho]; try done; [lia|].
    rewrite Ho. reflexivity.
Qed.

Lemma merge_timeline_data_eq h existing_data new_data :
  merge_timeline_data h existing_data new_data =
  match existing_data, new_data with
  | None, _ => (h, new_data)
  | Some _, None => (h, existing_data)
  | Some ex, Some nw => (merged_store h ex nw, existing_data)
  end.
Proof.
  unfold merge_timeline_data.
  by rewrite (merge_timeline_data_fuel_enough _ h existing_data new_data).
Qed.

Lemma merged_store_again h ex nw :
  merged_store (merged_store h ex nw) ex nw = merged_store h ex nw.
Proof.
  unfold merged_store at 2 3.
  destruct (edges_ref ex) as [le|] eqn:Hex;
    [|by unfold merged_store; rewrite Hex].
  destruct (edges_ref nw) as [ln|] eqn:Hnw;
    [|by unfold merged_store; rewrite Hex, Hnw].
  destruct (h !! le) as [es|] eqn:Hle;
    [|by unfold merged_store; rewrite Hex, Hnw, Hle].
  destruct (h !! ln) as [ns|] eqn:Hln;
    [|by unfold merged_store; rewrite Hex, Hnw, Hle, Hln].
  destruct (existing_ids_of es) as [ids|] eqn:Hids;
    [|by unfold merged_store; rewrite Hex, Hnw, Hle, Hln, Hids].
  destruct (decide (le = ln)) as [->|Hne].
  - unfold merged_store. rewrite Hex, Hnw, Hle, Hids.
    by destruct (decide (ln = ln)).
  - unfold merged_store. rewrite Hex, Hnw.
    rewrite lookup_insert_eq, lookup_insert_ne, Hln by done.
    destruct (existing_ids_of_Ret _ _ Hids) as [-> Hall].
    rewrite existing_ids_of_Forall
      by (apply Forall_app; split; [done | apply fresh_edges_have_id]).
    destruct (decide (le = ln)); [done|].
    rewrite (fresh_edges_again ns (ids_set es)
               (ids_set (es ++ fresh_edges (ids_set es) ns)));
      [|by rewrite ids_set_app].
    rewrite app_nil_r. apply insert_id. by rewrite lookup_insert_eq.
Qed.

(** [merge_timeline_data] writes to the list of [existing_data] only. *)
Lemma merged_store_other h a P l :
  edges_ref a <> Some l -> merged_store h a P !! l = h !! l.
Proof.
  intros Hl. unfold merged_store.
  destruct (edges_ref a) as [le|]; [|done].
  destruct (edges_ref P) as [ln|]; [|done].
  destruct (h !! le) as [es|]; [|done].
  destruct (h !! ln) as [ns|]; [|done].
  destruct (existing_ids_of es) as [ids|]; [|done].
  destruct (decide (le = ln)); [done|].
  rewrite lookup_insert_ne; [done | congruence].
Qed.

(** After the merge of a page, every id of the page is an id of the
    accumulation, up to the first edge without one. *)
Lemma merged_store_fresh h a P le es1 ids1 ns :
  edges_ref a = Some le ->
  merged_store h a P !! le = Some es1 ->
  existing_ids_of es1 = Ret ids1 ->
  edges_of h (Some P) = Some ns ->
  fresh_edges ids1 ns = [].
Proof.
  intros Ha H1 Hids1 HP. unfold merged_store in H1. rewrite Ha in H1.
  destruct P as [[ln|]]; simpl in *; [|discriminate].
  rewrite HP in H1.
  destruct (existing_ids_of_Ret _ _ Hids1) as [-> _].
  destruct (h !! le) as [es|] eqn:Hle.
  - destruct (existing_ids_of es) as [ids|] eqn:Hids.
    + destruct (existing_ids_of_Ret _ _ Hids) as [-> Hall].
      destruct (decide (le = ln)) as [->|Hne].
      * assert (es1 = ns) as -> by congruence. by apply fresh_edges_seen.
      * rewrite lookup_insert_eq in H1. injection H1 as <-.
        apply (fresh_edges_again ns (ids_set es)). by rewrite ids_set_app.
    + congruence.
  - congruence.
Qed.

(** Merging a second object with the edges of the page, as a second
    capture of one response gives, appends nothing either. *)
Lemma merged_store_copy h a P P' :
  edges_of h (Some P') = edges_of h (Some P) ->
  merged_store (merged_store h a P) a P' = merged_store h a P.
Proof.
  intros Hcopy.
  destruct (edges_ref a) as [le|] eqn:Ha;
    [|by unfold merged_store; rewrite Ha].
  destruct P' as [[l'|]]; [|by unfold merged_store at 1; rewrite Ha].
  change (h !! l' = edges_of h (Some P)) in Hcopy.
  unfold merged_store at 1. rewrite Ha. simpl.
  destruct (merged_store h a P !! le) as [es1|] eqn:H1; [|done].
  destruct (decide (le = l')) as [<-|Hne].
  - rewrite H1. by destruct (existing_ids_of es1).
  - rewrite merged_store_other, Hcopy by congruence.
    destruct (edges_of h (Some P)) as [ns|] eqn:HP; [|done].
    destruct (existing_ids_of es1) as [ids1|] eqn:Hids1; [|done].
    rewrite (merged_store_fresh h a P le es1 ids1 ns) by done.
    rewrite app_nil_r. by apply insert_id.
Qed.

Lemma merge_timeline_data_copy h A P P' :
  edges_of h (Some P') = edges_of h (Some P) ->
  let once := merge_timeline_data h A (Some P) in
  merge_timeline_data once.1 once.2 (Some P') = once.
Proof.
  intros Hcopy. cbn zeta.
  rewrite (merge_timeline_data_eq h A). destruct A as [a|]; simpl.
  - rewrite merge_timeline_data_eq. by rewrite merged_store_copy.
  - rewrite merge_timeline_data_eq. f_equal.
    destruct P as [[ln|]], P' as [[l'|]]; simpl in Hcopy;
      unfold merged_store; simpl; try done.
    rewrite Hcopy.
    destruct (h !! ln) as [ns|] eqn:Hln; [|done].
    destruct (existing_ids_of ns) as [ids|] eqn:Hids; [|done].
    destruct (decide (ln = l')); [done|].
    destruct (existing_ids_of_Ret _ _ Hids) as [-> _].
    rewrite fresh_edges_seen, app_nil_r by done. by apply insert_id.
Qed.

End MergeFacts.

Section MergeSequences.

Implicit Types (h : gmap loc (list json)) (es ns first : list json).


Lemma fresh_edges_ids_nodup seen es :
  NoDup (ids_of (fresh_edges seen es)) /\
  ids_set (fresh_edges seen es) ## seen.
Proof.
  revert seen. unfold ids_set.
  induction es as [|e es IH]; intros seen; simpl.
  - split; [constructor | set_solver].
  - destruct (edge_id e) as [k|] eqn:Hk; [|split; [constructor | set_solver]].
    destruct (decide (k ∈ seen)); [apply IH|].
    simpl. rewrite Hk. destruct (IH ({[k]} ∪ seen)) as [Hnd Hdisj].
    split.
    + constructor; [|done]. intros Hin.
      apply (Hdisj k); [by apply elem_of_list_to_set | set_solver].
    + set_solver.
Qed.





End MergeSequences.

(** C2. Merging a page a second time is a no-op: after
    [merge_timeline_data A P], a second [merge_timeline_data] of the same
    [P] into the result leaves the store and the returned object as they
    are, so the edges and their number are the same. This holds for every
    accumulation [A] ([None] or an object) and every page [P], well-formed
    or not, also when [A] is empty and the result is [P] itself. *)
Theorem merge_timeline_data_idempotent
    (h : gmap loc (list json)) (A : option timeline_data)
    (P : timeline_data) :
  let once := merge_timeline_data h A (Some P) in
  let twice := merge_timeline_data once.1 once.2 (Some P) in
  twice = once /\
  edges_of twice.1 twice.2 = edges_of once.1 once.2 /\
  length <$> edges_of twice.1 twice.2 = length <$> edges_of once.1 once.2.
Proof.
  assert (merge_timeline_data
            (merge_timeline_data h A (Some P)).1
            (merge_timeline_data h A (Some P)).2 (Some P) =
          merge_timeline_data h A (Some P)) as Heq.
  { rewrite (merge_timeline_data_eq h A). destruct A as [a|]; simpl.
    - rewrite merge_timeline_data_eq. by rewrite merged_store_again.
    - rewrite merge_timeline_data_eq. f_equal.
      unfold merged_store. destruct (edges_ref P) as [l|]; [|done].
      destruct (h !! l) as [es|]; [|done].
      destruct (existing_ids_of es); [|done].
      by destruct (decide (l = l)). }
  simpl. by rewrite Heq.
Qed.



(** The spec's scenario: [[{id:1},{id:2}]] then [[{id:2},{id:3}]] give the
    records 1, 2, 3, the record with id 2 being the one of the first page. *)
Example merge_all_123 :
  let r := merge_all Sample.page23.1 None
             [Sample.page12.2; Sample.page23.2] in
  edges_of r.1 r.2 =
  Some [Sample.edge 1 "a"; Sample.edge 2 "b"; Sample.edge 3 "d"].
Proof. vm_compute. reflexivity. Qed.


(** ** Response classifier *)

(** A body whose [data] has both query names is not Unrecognized: both
    output fields are set to the body. *)
Lemma process_graphql_response_both_names :
  let d := [(TARGET_QUERIES.profile, JDict [("id", JStr "7")]);
            (TARGET_QUERIES.timeline, JDict [("edges", JList [])])] in
  let body := JDict [("data", JDict d)] in
  Py.has_key TARGET_QUERIES.profile d = true /\
  Py.has_key TARGET_QUERIES.timeline d = true /\
  process_graphql_response body =
    Ret {| profile_info := Some body; reel_info := Some body |} /\
  (forall r, process_graphql_response body = Ret r ->
             classify r <> Unrecognized).
Proof.
  cbn zeta. repeat split; try reflexivity.
  intros r. vm_compute. intros [= <-]. discriminate.
Qed.

(** C4 (as amended). For every parsed body that is an object whose [data]
    field is an object (an absent [data] counts as the empty object), each
    output field is set on its own: [profile_info] is the body exactly when
    the profile query name is a key of [data], and [reel_info] is the body
    exactly when the timeline query name is. So the body is tagged
    ProfileSnapshot or TimelinePage when exactly one name is present, the
    result is Unrecognized (both fields [None]) when neither is, and both
    fields hold the body when both are. *)
Theorem process_graphql_response_fields
    (body : json) (d : list (string * json)) :
  Py.get body "data" (JDict []) = Ret (JDict d) ->
  exists r,
    process_graphql_response body = Ret r /\
    profile_info r =
      (if Py.has_key TARGET_QUERIES.profile d then Some body else None) /\
    reel_info r =
      (if Py.has_key TARGET_QUERIES.timeline d then Some body else None) /\
    classify r =
      match Py.has_key TARGET_QUERIES.profile d,
            Py.has_key TARGET_QUERIES.timeline d with
      | true, false => ProfileSnapshot body
      | false, true => TimelinePage body
      | false, false => Unrecognized
      | true, true => ProfileAndTimeline body
      end.
Proof.
  intros Hdata. destruct body as [| | | | |fields]; try discriminate.
  unfold process_graphql_response. rewrite Hdata. simpl.
  destruct (Py.has_key TARGET_QUERIES.profile d),
           (Py.has_key TARGET_QUERIES.timeline d);
    simpl; eexists; repeat split; reflexivity.
Qed.

Lemma process_graphql_response_fields_witness :
  let d := [(TARGET_QUERIES.timeline, JDict [("edges", JList [])])] in
  let body := JDict [("data", JDict d)] in
  exists r,
    process_graphql_response body = Ret r /\
    profile_info r =
      (if Py.has_key TARGET_QUERIES.profile d then Some body else None) /\
    reel_info r =
      (if Py.has_key TARGET_QUERIES.timeline d then Some body else None) /\
    classify r =
      match Py.has_key TARGET_QUERIES.profile d,
            Py.has_key TARGET_QUERIES.timeline d with
      | true, false => ProfileSnapshot body
      | false, true => TimelinePage body
      | false, false => Unrecognized
      | true, true => ProfileAndTimeline body
      end.
Proof.
  cbn zeta. apply process_graphql_response_fields. reflexivity.
Defined.

(** A body that is not an object is Unrecognized. *)
Lemma process_graphql_response_not_dict (body : json) :
  (forall fields, body <> JDict fields) ->
  process_graphql_response body =
    Ret {| profile_info := None; reel_info := None |}.
Proof. intros Hnd. destruct body; try reflexivity. by destruct (Hnd fields). Qed.

(** ** Rate limiter *)

Section RateLimiterFacts.

Variable fl : Q -> Q.
Hypothesis fl_monotone : forall x y, (x <= y)%Q -> (fl x <= fl y)%Q.






End RateLimiterFacts.

Lemma getitem_contains (x v : json) (k : string) :
  Py.getitem x k = Ret v -> Py.contains k x = Ret true /\ Py.truthy x = true.
Proof.
  destruct x as [| | | | |fields]; try discriminate. simpl.
  unfold Py.has_key. destruct (Py.assoc k fields) eqn:Hk; [|discriminate].
  intros _. split; [reflexivity|]. by destruct fields.
Qed.



(** ** Per-item results *)



(** The spec's scenario: a private snapshot and no timeline record. *)
Example save_data_private :
  let r := save_data SampleProfile.exact (3 # 2) true "a"
             {| profile_info := Some SampleProfile.private_snapshot;
                reel_info := None |}
             "https://www.instagram.com/a/" SampleProfile.world0 in
  r.2 = Ret false /\
  no_response_links r.1 = ["https://www.instagram.com/a/"] /\
  failed (run_stats r.1) = 1 /\
  done_file r.1 = None.
Proof. vm_compute. repeat split. Qed.

(** An exception that leaves [save_data] is a failure for the worker. *)
Lemma worker_save_raise
    (fl : Q -> Q) (base_wait : Q) (picture_ok : bool) (username : string)
    (data : graphql_data) (u : string) (w w' : world) :
  save_data fl base_wait picture_ok username data u w = (w', Raise) ->
  worker_save fl base_wait picture_ok username data u w =
    record_failure u w'.
Proof. unfold worker_save. by intros ->. Qed.



(** ** Work list and done-log *)

Section LoadUrls.

Implicit Types (urls ds : list string) (w : world).

Lemma omap_imap_filter (P : string -> Prop) `{!forall u, Decision (P u)}
    (g : nat -> string -> option string) urls (f : nat -> nat) :
  (forall i u, urls !! i = Some u ->
               g (f i) u = if decide (P u) then Some u else None) ->
  omap (fun iu : nat * string => g iu.1 iu.2)
       (imap (fun i u => (f i, u)) urls) = filter P urls.
Proof.
  revert f. induction urls as [|x urls IH]; intros f Hg; [reflexivity|].
  rewrite filter_cons, <- (IH (f ∘ S))
    by (intros i u Hi; apply (Hg (S i) u Hi)).
  simpl. rewrite (Hg 0 x eq_refl). by destruct (decide (P x)).
Qed.

(** The pending list is the input list without the entries whose normal
    form is completed. *)
Lemma load_urls_filter w df :
  input_file w = Some df ->
  (load_urls w).1 =
  filter (fun u => normalize u ∉ completed_set w) (map url df).
Proof.
  intros Hin. unfold load_urls. rewrite Hin. simpl.
  apply (omap_imap_filter (fun u => normalize u ∉ completed_set w)
           (fun i u =>
              match map normalize (map url df) !! i with
              | Some norm_url =>
                  if decide (norm_url ∉ completed_set w)
                  then Some u else None
              | None => None
              end) (map url df) id).
  intros i u Hi. simpl. rewrite list_lookup_fmap, Hi. reflexivity.
Qed.

Lemma filter_ext_in {A} (P Q : A -> Prop)
    `{!forall x, Decision (P x), !forall x, Decision (Q x)} (l : list A) :
  (forall x, x ∈ l -> P x <-> Q x) -> filter P l = filter Q l.
Proof.
  induction l as [|x l IH]; intros Hext; [reflexivity|].
  rewrite !filter_cons, IH by (intros y Hy; apply Hext; by right).
  pose proof (Hext x (list_elem_of_here x l)) as Hx.
  destruct (decide (P x)) as [HP|HP], (decide (Q x)) as [HQ|HQ];
    try reflexivity; tauto.
Qed.

Lemma filter_all {A} (P : A -> Prop) `{!forall x, Decision (P x)}
    (l : list A) :
  (forall x, x ∈ l -> P x) -> filter P l = l.
Proof.
  induction l as [|x l IH]; intros Hall; [reflexivity|].
  rewrite filter_cons, IH by (intros y Hy; apply Hall; by right).
  destruct (decide (P x)) as [|HP]; [reflexivity|].
  exfalso. apply HP, Hall. by left.
Qed.




End LoadUrls.



(** The restart as the program runs it: ten of the hundred urls are marked
    complete, which also takes their rows out of the input file, and the next
    [load_urls] returns the other ninety. *)
Example load_urls_after_restart :
  let w := SampleRun.mark_complete SampleRun.completed SampleRun.first_run in
  (load_urls w).1 = drop 10 SampleRun.urls /\
  length (load_urls w).1 = 90 /\
  (load_urls w).2 = map normalize SampleRun.completed.
Proof. vm_compute. repeat split. Qed.

(** ** Scroll controller *)

Section ScrollLoop.

Implicit Types (b : batch) (st : loop_state) (env : nat -> batch).

Lemma classify_events_counters b st st1 :
  classify_events b st = Ret st1 ->
  scroll_attempts st1 = scroll_attempts st /\
  posts_before st1 = posts_before st /\
  no_new_posts_count st1 = no_new_posts_count st.
Proof.
  unfold classify_events. destruct (get_network_responses b); [|discriminate].
  by intros [= <-].
Qed.

Lemma scroll_Continue b st st' :
  scroll b st = Continue st' -> scroll_attempts st' = S (scroll_attempts st).
Proof. unfold scroll. destruct (scroll_ok b); [|discriminate]. by intros [= <-]. Qed.

(** An iteration that does not leave the loop has counted one attempt. *)
Lemma scroll_iteration_Continue b st st' :
  scroll_iteration b st = Continue st' ->
  scroll_attempts st' = S (scroll_attempts st).
Proof.
  unfold scroll_iteration.
  destruct (classify_events b st) as [st1|] eqn:Hc; [|discriminate].
  apply classify_events_counters in Hc as (Ha & _ & _).
  destruct (count_posts _ _) as [n|]; [|discriminate].
  destruct (target_posts <=? n); [discriminate|].
  destruct (n =? posts_before st1).
  - destruct (_ && _); [discriminate|].
    intros Hs. apply scroll_Continue in Hs. simpl in Hs. congruence.
  - intros Hs. apply scroll_Continue in Hs. simpl in Hs. congruence.
Qed.

(** The stagnation counter counts the evaluations in a row that found the
    record count unchanged: after an iteration that goes on, [posts_before]
    is the count that was evaluated, and the counter has grown by one when
    that count was the one before and is zero when it was not. *)
Lemma scroll_iteration_counter b st st' :
  scroll_iteration b st = Continue st' ->
  exists st1 n,
    classify_events b st = Ret st1 /\
    count_posts (store st1) (combined_data st1) = Ret n /\
    posts_before st' = n /\
    ((n = posts_before st /\
      no_new_posts_count st' = S (no_new_posts_count st)) \/
     (n <> posts_before st /\ no_new_posts_count st' = 0)).
Proof.
  unfold scroll_iteration.
  destruct (classify_events b st) as [st1|] eqn:Hc; [|discriminate].
  apply classify_events_counters in Hc as (Ha & Hb & Hn).
  destruct (count_posts _ _) as [n|] eqn:Hcount; [|discriminate].
  destruct (target_posts <=? n); [discriminate|].
  destruct (n =? posts_before st1) eqn:Heq.
  - apply Nat.eqb_eq in Heq.
    destruct (_ && _); [discriminate|]. unfold scroll.
    destruct (scroll_ok b); [|discriminate]. intros [= <-]. simpl.
    exists st1, n. split; [done|]. split; [done|]. split; [congruence|].
    left. split; congruence.
  - apply Nat.eqb_neq in Heq. unfold scroll.
    destruct (scroll_ok b); [|discriminate]. intros [= <-]. simpl.
    exists st1, n. split; [done|]. split; [done|]. split; [done|].
    right. split; [congruence | done].
Qed.

Lemma scroll_loop_bounded m env k st :
  MAX_SCROLL_ATTEMPTS - scroll_attempts st <= m ->
  exists why st' n,
    n <= k + m /\
    forall fuel, m < fuel -> scroll_loop fuel env k st = Some (why, st', n).
Proof.
  revert k st. induction m as [|m IH]; intros k st Hm.
  - exists MaxAttempts, st, k. split; [lia|].
    intros [|fuel] Hfuel; [lia|]. simpl.
    destruct (scroll_attempts st <? MAX_SCROLL_ATTEMPTS) eqn:Hlt; [|done].
    apply Nat.ltb_lt in Hlt. lia.
  - destruct (scroll_attempts st <? MAX_SCROLL_ATTEMPTS) eqn:Hlt.
    + destruct (scroll_iteration (env k) st) as [st'|why st'] eqn:Hit.
      * apply scroll_iteration_Continue in Hit as Hsa.
        destruct (IH (S k) st') as (why & st'' & n & Hn & Hrun); [lia|].
        exists why, st'', n. split; [lia|].
        intros [|fuel] Hfuel; [lia|]. simpl. rewrite Hlt, Hit.
        apply Hrun. lia.
      * exists why, st', (S k). split; [lia|].
        intros [|fuel] Hfuel; [lia|]. simpl. by rewrite Hlt, Hit.
    + exists MaxAttempts, st, k. split; [lia|].
      intros [|fuel] Hfuel; [lia|]. simpl. by rewrite Hlt.
Qed.

End ScrollLoop.

(** C8. Whatever the session delivers, the scroll loop of [scrape_profile]
    comes to an end: from any state of the loop, and so from its initial
    state, it leaves after at most [MAX_SCROLL_ATTEMPTS] = 15 iterations,
    less the attempts already counted, for every fuel above 15. *)
Theorem scroll_loop_terminates (env : nat -> batch) (st : loop_state) :
  MAX_SCROLL_ATTEMPTS = 15 /\
  exists why st' n,
    n <= MAX_SCROLL_ATTEMPTS - scroll_attempts st /\
    n <= MAX_SCROLL_ATTEMPTS /\
    forall fuel, MAX_SCROLL_ATTEMPTS < fuel ->
                 scroll_loop fuel env 0 st = Some (why, st', n).
Proof.
  split; [reflexivity|].
  destruct (scroll_loop_bounded
              (MAX_SCROLL_ATTEMPTS - scroll_attempts st) env 0 st)
    as (why & st' & n & Hn & Hrun); [lia|].
  exists why, st', n. split; [lia|]. split; [lia|].
  intros fuel Hfuel. apply Hrun. lia.
Qed.

(** C7. In a state of the loop in which the record count was found
    unchanged at least twice in a row, an evaluation that finds it unchanged
    again, at 30 or more and below the target of 50, leaves the loop with
    the stagnation reason. This holds at every attempt the loop runs, the
    fifteenth included: the budget is not the reason for stopping. *)
Theorem stagnation_stops_scrolling
    (b : batch) (st st1 : loop_state) (posts_after : nat) :
  scroll_attempts st < MAX_SCROLL_ATTEMPTS ->
  classify_events b st = Ret st1 ->
  count_posts (store st1) (combined_data st1) = Ret posts_after ->
  posts_after = posts_before st ->
  2 <= no_new_posts_count st ->
  30 <= posts_after < target_posts ->
  let st2 := {| scroll_attempts := scroll_attempts st;
                posts_before := posts_before st;
                no_new_posts_count := S (no_new_posts_count st);
                combined_data := combined_data st1;
                store := store st1 |} in
  scroll_iteration b st = Break Stagnation st2 /\
  forall fuel env k,
    env k = b ->
    scroll_loop (S fuel) env k st = Some (Stagnation, st2, S k).
Proof.
  intros Hbudget Hc Hcount Hsame Hstalled [Hfloor Htarget]. cbn zeta.
  assert (scroll_iteration b st =
          Break Stagnation
            {| scroll_attempts := scroll_attempts st;
               posts_before := posts_before st;
               no_new_posts_count := S (no_new_posts_count st);
               combined_data := combined_data st1;
               store := store st1 |}) as Hit.
  { unfold scroll_iteration. rewrite Hc, Hcount.
    apply classify_events_counters in Hc as (-> & -> & ->).
    destruct (target_posts <=? posts_after) eqn:Ht;
      [apply Nat.leb_le in Ht; lia|].
    rewrite (proj2 (Nat.eqb_eq _ _) Hsame). simpl no_new_posts_count.
    rewrite (proj2 (Nat.leb_le 3 _)) by lia.
    rewrite (proj2 (Nat.leb_le 30 _)) by lia.
    reflexivity. }
  split; [exact Hit|].
  intros fuel env k Hk. simpl.
  rewrite (proj2 (Nat.ltb_lt _ _) Hbudget), Hk, Hit. reflexivity.
Qed.

Lemma stagnation_stops_scrolling_witness :
  let st := SampleSession.stalled in
  let st2 := {| scroll_attempts := 14;
                posts_before := 30;
                no_new_posts_count := 3;
                combined_data := combined_data st;
                store := store st |} in
  scroll_iteration SampleSession.quiet st = Break Stagnation st2 /\
  scroll_loop 16 (fun _ => SampleSession.quiet) 0 st =
    Some (Stagnation, st2, 1).
Proof.
  cbn zeta.
  destruct (stagnation_stops_scrolling SampleSession.quiet
              SampleSession.stalled SampleSession.stalled 30)
    as [Hit Hloop].
  - unfold MAX_SCROLL_ATTEMPTS. simpl. lia.
  - reflexivity.
  - vm_compute. reflexivity.
  - reflexivity.
  - simpl. lia.
  - unfold target_posts. lia.
  - split; [exact Hit|].
    exact (Hloop 15 (fun _ => SampleSession.quiet) 0 eq_refl).
Defined.

(** When reading the events raises, the iteration does not go on to the
    next fetch with the stagnation counter advanced: it leaves the loop,
    after one iteration, with the counters as they were. *)
Lemma read_error_ends_scrolling :
  let st := initial_state ∅ in
  get_network_responses SampleSession.unreadable = Raise /\
  scroll_iteration SampleSession.unreadable st = Break ScrollError st /\
  scroll_loop 16 (fun _ => SampleSession.unreadable) 0 st =
    Some (ScrollError, st, 1) /\
  ~ (exists st',
       scroll_iteration SampleSession.unreadable st = Continue st' /\
       no_new_posts_count st' = S (no_new_posts_count st)).
Proof.
  cbn zeta. split; [reflexivity|]. split; [reflexivity|].
  split; [reflexivity|]. intros (st' & Hit & _). discriminate Hit.
Qed.

Section ScrollExceptions.

Implicit Types (b : batch) (st : loop_state).

Lemma inspect_response_bodies b b' response :
  bodies b = bodies b' ->
  inspect_response b response = inspect_response b' response.
Proof. unfold inspect_response. by intros ->. Qed.

Lemma handle_response_bodies b b' s response :
  bodies b = bodies b' ->
  handle_response b s response = handle_response b' s response.
Proof.
  intros Hb. unfold handle_response.
  by rewrite (inspect_response_bodies b b' response Hb).
Qed.

Lemma foldl_handle_response_bodies b b' s responses :
  bodies b = bodies b' ->
  foldl (handle_response b) s responses =
  foldl (handle_response b') s responses.
Proof.
  intros Hb. revert s. induction responses as [|r rs IH]; intros s; [done|].
  simpl. by rewrite IH, (handle_response_bodies b b' s r Hb).
Qed.

(** The inner handler: an event whose handling raises changes nothing. *)
Lemma handle_response_Raise b s response :
  inspect_response b response = Raise -> handle_response b s response = s.
Proof. unfold handle_response. by intros ->. Qed.

Lemma foldl_handle_response_skip b s before response after :
  inspect_response b response = Raise ->
  foldl (handle_response b) s (before ++ response :: after) =
  foldl (handle_response b) s (before ++ after).
Proof.
  intros Hr. rewrite !foldl_app. simpl.
  by rewrite (handle_response_Raise b _ response Hr).
Qed.

End ScrollExceptions.

(** C5 (as amended). In an iteration of the scroll loop, an exception
    raised while one network event is inspected, its body fetched and parsed
    or the body classified is caught, and only that event is passed over:
    the iteration does what it does without the event, on the events before
    and after it. An exception raised while the events are read
    ([get_network_responses]) reaches the handler of the loop, which ends
    scrolling for the work item: the loop is left with the state as it was,
    the attempt counter and the stagnation counter included. *)
Theorem scroll_iteration_exceptions (b : batch) (st : loop_state) :
  (forall before response after b',
     get_network_responses b = Ret (before ++ response :: after) ->
     inspect_response b response = Raise ->
     get_network_responses b' = Ret (before ++ after) ->
     bodies b' = bodies b -> scroll_ok b' = scroll_ok b ->
     scroll_iteration b st = scroll_iteration b' st) /\
  (get_network_responses b = Raise ->
   scroll_iteration b st = Break ScrollError st /\
   forall fuel env k,
     env k = b -> scroll_attempts st < MAX_SCROLL_ATTEMPTS ->
     scroll_loop (S fuel) env k st = Some (ScrollError, st, S k)).
Proof.
  split.
  - intros before response after b' Hb Hr Hb' Hbodies Hscroll.
    unfold scroll_iteration, classify_events, scroll.
    rewrite Hb, Hb', Hscroll.
    rewrite (foldl_handle_response_skip b _ before response after Hr).
    by rewrite (foldl_handle_response_bodies b' b _ _ Hbodies).
  - intros Hb.
    assert (scroll_iteration b st = Break ScrollError st) as Hit.
    { unfold scroll_iteration, classify_events. by rewrite Hb. }
    split; [exact Hit|]. intros fuel env k Hk Hbudget. simpl.
    by rewrite (proj2 (Nat.ltb_lt _ _) Hbudget), Hk, Hit.
Qed.

Lemma scroll_iteration_exceptions_witness :
  scroll_iteration SampleSession.one_bad_body (initial_state ∅) =
  scroll_iteration SampleSession2.good_body_only (initial_state ∅) /\
  scroll_iteration SampleSession.unreadable (initial_state ∅) =
  Break ScrollError (initial_state ∅) /\
  scroll_loop 16 (fun _ => SampleSession.unreadable) 0 (initial_state ∅) =
  Some (ScrollError, initial_state ∅, 1).
Proof.
  split.
  - apply (proj1 (scroll_iteration_exceptions SampleSession.one_bad_body
                    (initial_state ∅))
             [] (SampleSession.graphql_event "1")
             [SampleSession.graphql_event "2"]
             SampleSession2.good_body_only);
      reflexivity.
  - destruct (proj2 (scroll_iteration_exceptions SampleSession.unreadable
                       (initial_state ∅)) eq_refl) as [Hit Hloop].
    split; [exact Hit|].
    apply (Hloop 15 (fun _ => SampleSession.unreadable) 0 eq_refl).
    unfold MAX_SCROLL_ATTEMPTS. simpl. lia.
Defined.

(** What the iteration with one bad body amounts to: the page of the second
    event is merged, two records are counted and the loop goes on. *)
Example one_bad_body_continues :
  exists st',
    scroll_iteration SampleSession.one_bad_body (initial_state ∅) =
      Continue st' /\
    scroll_attempts st' = 1 /\ posts_before st' = 2 /\
    no_new_posts_count st' = 0 /\
    ids_of <$> edges_of (store st') (combined_reel (combined_data st')) =
      Some [IdInt 1; IdInt 2].
Proof. eexists. vm_compute. repeat split. Qed.

(** * Further properties *)

(** ** Strings *)

Section StringFacts.

Implicit Types (p : ascii -> bool) (s t u : string) (c sep : ascii).

Lemma append_nil_s t : EmptyString +:+ t = t.
Proof. reflexivity. Qed.

Lemma append_cons_s c s t : String c s +:+ t = String c (s +:+ t).
Proof. reflexivity. Qed.

Ltac string_simpl :=
  repeat (rewrite append_cons_s || rewrite append_nil_s); simpl.

Lemma append_assoc_s s t u : (s +:+ t) +:+ u = s +:+ (t +:+ u).
Proof. induction s as [|c s IH]; string_simpl; [done | by f_equal]. Qed.

Lemma append_empty_r s : s +:+ EmptyString = s.
Proof. induction s as [|c s IH]; string_simpl; [done | by f_equal]. Qed.

Lemma lstrip_append p s t :
  lstrip p (s +:+ t) =
  match lstrip p s with
  | EmptyString => lstrip p t
  | r => r +:+ t
  end.
Proof.
  induction s as [|c s IH]; string_simpl; [by destruct (lstrip p t)|].
  destruct (p c); [exact IH | reflexivity].
Qed.

(** What [rstrip] leaves is a prefix, untouched, of a longer string. *)
Lemma rstrip_append_keep p s t :
  rstrip p t <> EmptyString -> rstrip p (s +:+ t) = s +:+ rstrip p t.
Proof.
  intros Ht. induction s as [|c s IH]; string_simpl; [done|].
  rewrite IH. destruct (s +:+ rstrip p t) eqn:Hst; [|done].
  destruct s; [done | discriminate].
Qed.

Lemma rstrip_append_drop p s t :
  all_chars p t = true -> rstrip p (s +:+ t) = rstrip p s.
Proof.
  intros Ht. induction s as [|c s IH]; string_simpl.
  - induction t as [|a t IHt]; simpl in *; [done|].
    apply andb_true_iff in Ht as [Ha Ht]. by rewrite (IHt Ht), Ha.
  - by rewrite IH.
Qed.

Lemma rstrip_none p s :
  all_chars (fun c => negb (p c)) s = true -> rstrip p s = s.
Proof.
  induction s as [|c s IH]; simpl; [done|].
  intros [Hc Hs]%andb_true_iff. rewrite (IH Hs).
  destruct s; [|done]. by destruct (p c).
Qed.

Lemma rstrip_fixed_tail p c s :
  rstrip p (String c s) = String c s ->
  s = EmptyString \/ rstrip p s = s.
Proof.
  simpl. destruct (rstrip p s) as [|a r] eqn:Hr.
  - destruct (p c); [discriminate|]. intros [= <-]. by left.
  - intros [= <-]. by right.
Qed.

Lemma rstrip_fixed_lstrip p s :
  rstrip p s = s -> rstrip p (lstrip p s) = lstrip p s.
Proof.
  induction s as [|c s IH]; [done|]. intros Hfix. simpl lstrip.
  destruct (p c) eqn:Hc; [|exact Hfix].
  destruct (rstrip_fixed_tail p c s Hfix) as [->|Hs]; [|by apply IH].
  simpl in Hfix. by rewrite Hc in Hfix.
Qed.

Lemma split_cons sep s : exists seg rest, split sep s = seg :: rest.
Proof.
  induction s as [|c s (seg & rest & IH)]; simpl; [by eexists _, _|].
  rewrite IH. destruct (Ascii.eqb c sep); by eexists _, _.
Qed.

(** No segment holds the separator, and a character of a segment is a
    character of the string. *)
Lemma split_segments sep s :
  Forall (fun seg => has_char sep seg = false /\
                     forall c, has_char c seg = true -> has_char c s = true)
         (split sep s).
Proof.
  induction s as [|a s IH]; simpl.
  - by repeat constructor.
  - destruct (split sep s) as [|seg rest] eqn:Hsplit.
    { destruct (split_cons sep s) as (? & ? & ?); congruence. }
    apply Forall_cons in IH as [[Hseg Hsub] IH].
    assert (Forall (fun seg => has_char sep seg = false /\
              forall c, has_char c seg = true ->
                        has_char c (String a s) = true) rest) as Hrest.
    { eapply Forall_impl; [exact IH|]. intros x [? Hx]. split; [done|].
      intros c Hc. simpl. rewrite (Hx c Hc). apply orb_true_r. }
    destruct (Ascii.eqb a sep) eqn:Ha.
    + constructor; [split; [done | discriminate]|].
      constructor; [|exact Hrest]. split; [done|].
      intros c Hc. simpl. rewrite (Hsub c Hc). apply orb_true_r.
    + constructor; [|exact Hrest]. split.
      * simpl. by rewrite Ha.
      * intros c. simpl. intros [->|Hc]%orb_true_iff; [done|].
        rewrite (Hsub c Hc). apply orb_true_r.
Qed.

Lemma split_none sep s : has_char sep s = false -> split sep s = [s].
Proof.
  induction s as [|a s IH]; simpl; [done|].
  intros [Ha Hs]%orb_false_iff. by rewrite (IH Hs), Ha.
Qed.

Lemma last_split_append sep s t :
  List.last (split sep (s +:+ String sep t)) EmptyString =
  List.last (split sep t) EmptyString.
Proof.
  induction s as [|a s IH]; string_simpl.
  - rewrite Ascii.eqb_refl.
    by destruct (split_cons sep t) as (seg & rest & ->).
  - destruct (split sep (s +:+ String sep t)) as [|seg rest] eqn:Hsplit.
    { destruct (split_cons sep (s +:+ String sep t)) as (? & ? & ?); congruence. }
    assert (rest <> []) as Hrest.
    { clear IH. revert seg rest Hsplit.
      induction s as [|b s IHs]; string_simpl; intros seg rest.
      - rewrite Ascii.eqb_refl.
        destruct (split_cons sep t) as (? & ? & ->). by intros [= <- <-].
      - destruct (split sep (s +:+ String sep t)) as [|seg' rest'] eqn:Hs.
        { destruct (split_cons sep (s +:+ String sep t)) as (? & ? & ?); congruence. }
        specialize (IHs seg' rest' eq_refl).
        destruct (Ascii.eqb b sep); by intros [= <- <-]. }
    rewrite <- IH.
    destruct (Ascii.eqb a sep); destruct rest; done.
Qed.

End StringFacts.

(** ** User names *)

(** X1. A user name holds no slash and no question mark, whatever the url. *)
Theorem get_username_no_separator (u : string) :
  has_char "/" (get_username u) = false /\
  has_char "?" (get_username u) = false.
Proof.
  unfold get_username.
  set (x := normalize u).
  assert (has_char "/" (List.last (split "/" x) EmptyString) = false) as Hlast.
  { pose proof (split_segments "/" x) as Hall.
    destruct (split_cons "/" x) as (seg & rest & Hsplit).
    rewrite Hsplit in *.
    assert (List.last (seg :: rest) EmptyString ∈ seg :: rest) as Hin.
    { clear. revert seg. induction rest as [|r rest IH]; intros seg.
      - simpl. by left.
      - right. apply (IH r). }
    rewrite Forall_forall in Hall. by destruct (Hall _ Hin). }
  set (y := List.last (split "/" x) EmptyString) in *.
  pose proof (split_segments "?" y) as Hall.
  destruct (split_cons "?" y) as (seg & rest & Hsplit).
  rewrite Hsplit in *. simpl.
  apply Forall_cons in Hall as [[Hq Hsub] _]. split; [|done].
  destruct (has_char "/" seg) eqn:Hs; [|done].
  by rewrite (Hsub _ Hs) in Hlast.
Qed.

Lemma normalize_profile_url (pre name slashes blanks : string) :
  name <> EmptyString ->
  all_chars (fun c => negb (is_space c)) name = true ->
  has_char "/" name = false ->
  all_chars is_slash slashes = true ->
  all_chars is_space blanks = true ->
  exists pre',
    normalize (pre +:+ String "/" name +:+ slashes +:+ blanks) =
    pre' +:+ String "/" name.
Proof.
  intros Hname Hclean Hslash Hslashes Hblanks.
  assert (all_chars (fun c => negb (is_slash c)) name = true) as Hns.
  { clear -Hslash. induction name as [|a n IH]; simpl in *; [done|].
    apply orb_false_iff in Hslash as [Ha Hn].
    unfold is_slash at 1. by rewrite Ha, IH. }
  assert (forall t, t <> EmptyString -> forall x, String x t <> EmptyString)
    as _ by done.
  unfold normalize.
  set (tl := String "/" name +:+ slashes +:+ blanks).
  assert (exists pre', lstrip is_space (pre +:+ tl) = pre' +:+ tl)
    as [pre' ->].
  { rewrite lstrip_append. destruct (lstrip is_space pre) eqn:Hp.
    - exists EmptyString. reflexivity.
    - by eexists. }
  exists pre'. subst tl.
  rewrite <- !append_assoc_s.
  rewrite (rstrip_append_drop is_space _ blanks Hblanks).
  assert (rstrip is_space (String "/" name) = String "/" name) as Hsp.
  { simpl. rewrite (rstrip_none is_space name Hclean). by destruct name. }
  assert (rstrip is_slash (String "/" name) = String "/" name) as Hsl.
  { simpl. rewrite (rstrip_none is_slash name Hns). by destruct name. }
  destruct slashes as [|a sl].
  - rewrite append_empty_r, rstrip_append_keep by (by rewrite Hsp).
    rewrite Hsp, rstrip_append_keep by (by rewrite Hsl). by rewrite Hsl.
  - assert (rstrip is_space (String a sl) = String a sl) as Hkeep.
    { apply rstrip_none. clear -Hslashes.
      induction (String a sl) as [|b s IH]; simpl in *; [done|].
      apply andb_true_iff in Hslashes as [Hb Hs]. rewrite (IH Hs).
      unfold is_slash in Hb. apply Ascii.eqb_eq in Hb as ->. reflexivity. }
    rewrite rstrip_append_keep by (by rewrite Hkeep). rewrite Hkeep.
    rewrite (rstrip_append_drop is_slash _ _ Hslashes).
    rewrite rstrip_append_keep by (by rewrite Hsl). by rewrite Hsl.
Qed.

(** X2. The user name of a profile url is its last path segment: trailing
    slashes and blanks after it, and whatever comes before its slash, do not
    count. *)
Theorem get_username_profile_url (pre name slashes blanks : string) :
  name <> EmptyString ->
  all_chars (fun c => negb (is_space c)) name = true ->
  has_char "/" name = false ->
  has_char "?" name = false ->
  all_chars is_slash slashes = true ->
  all_chars is_space blanks = true ->
  get_username (pre +:+ String "/" name +:+ slashes +:+ blanks) = name.
Proof.
  intros Hname Hclean Hslash Hq Hslashes Hblanks.
  destruct (normalize_profile_url pre name slashes blanks)
    as [pre' Hnorm]; try done.
  unfold get_username. rewrite Hnorm, last_split_append.
  rewrite (split_none "/" name Hslash). simpl.
  by rewrite (split_none "?" name Hq).
Qed.

Lemma get_username_profile_url_witness :
  get_username "  https://www.instagram.com/some.user//  " = "some.user".
Proof.
  apply (get_username_profile_url "  https://www.instagram.com" "some.user"
           "//" "  "); try reflexivity.
  discriminate.
Defined.

(** X3. A query that follows a closing slash leaves no user name: the last
    segment of [.../name/?hl=en] starts at the question mark. *)
Theorem get_username_query_after_slash (pre query : string) :
  all_chars (fun c => negb (is_space c)) query = true ->
  has_char "/" query = false ->
  get_username (pre +:+ String "/" (String "?" query)) = EmptyString.
Proof.
  intros Hclean Hslash.
  destruct (normalize_profile_url pre (String "?" query)
              EmptyString EmptyString) as [pre' Hnorm]; try done.
  rewrite !append_empty_r in Hnorm.
  unfold get_username. rewrite Hnorm, last_split_append.
  rewrite (split_none "/" (String "?" query)) by done.
  simpl. by destruct (split_cons "?" query) as (seg & rest & ->).
Qed.

Lemma get_username_query_after_slash_witness :
  get_username "https://www.instagram.com/some.user/?hl=en" = EmptyString.
Proof.
  apply (get_username_query_after_slash
           "https://www.instagram.com/some.user" "hl=en"); reflexivity.
Defined.

(** X4. An entry and the same entry followed by a slash are one work item, when
    the entry does not end in a blank. *)
Theorem normalize_trailing_slash (u : string) :
  rstrip is_space u = u ->
  normalize (u +:+ "/") = normalize u.
Proof.
  intros Hfix. unfold normalize. rewrite lstrip_append.
  pose proof (rstrip_fixed_lstrip is_space u Hfix) as Hv.
  destruct (lstrip is_space u) as [|c v] eqn:Hl; [reflexivity|].
  rewrite rstrip_append_keep by done. simpl (rstrip is_space "/").
  rewrite (rstrip_append_drop is_slash _ "/") by reflexivity.
  by rewrite Hv.
Qed.

Lemma normalize_trailing_slash_witness :
  normalize (" https://www.instagram.com/b" +:+ "/") =
  normalize " https://www.instagram.com/b".
Proof. apply normalize_trailing_slash. reflexivity. Defined.

(** Without that condition the two differ: a blank before the slash stays. *)
Example normalize_blank_before_slash :
  normalize "b /" = "b " /\ normalize "b " = "b" /\
  normalize (normalize "b /") <> normalize "b /".
Proof. repeat split. discriminate. Qed.

(** ** Worker pool size *)

(** X5. The pool has at least one worker and at most [MAX_WORKERS], whatever
    the machine reports and however floats round; it has [MAX_WORKERS] when
    forced, and one on a machine with one or two physical cores, or an
    unknown number of them, when not. *)
Theorem get_optimal_worker_count_bounds
    (fl : Q -> Q) (force : bool) (physical_cpus : option Z) (available : Z) :
  let n := get_optimal_worker_count fl force physical_cpus available in
  (1 <= n <= MAX_WORKERS)%Z /\
  (force = true -> n = MAX_WORKERS) /\
  (force = false ->
   (physical_cpus = None \/ exists c, physical_cpus = Some c /\ (c <= 2)%Z) ->
   n = 1%Z).
Proof.
  cbn zeta. unfold get_optimal_worker_count, MAX_WORKERS.
  set (m := py_int _). destruct force.
  - split; [lia|]. split; [done | discriminate].
  - split; [lia|]. split; [discriminate|]. intros _ [->|(c & -> & Hc)]; [lia|].
    destruct (c =? 0)%Z eqn:Hz; lia.
Qed.

Lemma get_optimal_worker_count_bounds_witness :
  get_optimal_worker_count SampleProfile.exact true (Some 8%Z)
    (16 * 1024 ^ 3) = MAX_WORKERS /\
  get_optimal_worker_count SampleProfile.exact false (Some 2%Z)
    (16 * 1024 ^ 3) = 1%Z.
Proof.
  split.
  - apply (get_optimal_worker_count_bounds SampleProfile.exact true
             (Some 8%Z) (16 * 1024 ^ 3)). reflexivity.
  - apply (get_optimal_worker_count_bounds SampleProfile.exact false
             (Some 2%Z) (16 * 1024 ^ 3)); [reflexivity|].
    right. exists 2%Z. split; [reflexivity | lia].
Defined.

(** ** Account type *)

(** X6. Any business indicator makes the account a business one, whatever the
    professional flag and the biography say. *)
Theorem detect_account_type_business
    (pd d user v : json) (indicator : string) :
  Py.getitem pd "data" = Ret d ->
  Py.getitem d "user" = Ret user ->
  indicator ∈ ["is_business_account"; "business_category_name";
               "business_phone_number"; "business_email"] ->
  Py.getitem user indicator = Ret v ->
  Py.truthy v = true ->
  biography_lower user <> Raise ->
  detect_account_type (Some pd) = Ret "business".
Proof.
  intros Hd Hu Hind Hv Htruthy Hbio.
  destruct (getitem_contains _ _ _ Hd) as [Hcd Htd].
  destruct (getitem_contains _ _ _ Hu) as [Hcu _].
  unfold detect_account_type, has_user.
  rewrite Htd. simpl negb. cbv iota. rewrite Hcd. simpl.
  rewrite Hd. simpl. rewrite Hcu. simpl. rewrite Hu. simpl.
  destruct user as [| | | | |fields]; try discriminate.
  destruct (biography_lower (JDict fields)) as [bio|] eqn:Hb; [|done].
  simpl in Hv. simpl.
  destruct (Py.assoc indicator fields) as [v'|] eqn:Ha; [|discriminate].
  injection Hv as ->.
  repeat (apply elem_of_cons in Hind as [->|Hind]);
    [| | | |by apply elem_of_nil in Hind];
    rewrite Ha, Htruthy; simpl; rewrite ?orb_true_r; reflexivity.
Qed.

Lemma detect_account_type_business_witness :
  detect_account_type
    (Some (JDict [("data",
             JDict [("user",
               JDict [("is_professional_account", JBool true);
                      ("business_email", JStr "hello@example.com");
                      ("biography",
                       JStr "Content creator | YouTube")])])])) =
  Ret "business".
Proof.
  eapply (detect_account_type_business _ _ _ _ "business_email");
    try reflexivity.
  - set_solver.
  - discriminate.
Defined.

(** The biography counts without regard to letter case: two snapshots that
    differ only in the case of the letters of the biography get the same
    type. *)
Theorem detect_account_type_case
    (bio1 bio2 : string) (fields : list (string * json)) :
  lower bio1 = lower bio2 ->
  detect_account_type
    (Some (JDict [("data",
             JDict [("user", JDict (("biography", JStr bio1) :: fields))])]))
  =
  detect_account_type
    (Some (JDict [("data",
             JDict [("user", JDict (("biography", JStr bio2) :: fields))])])).
Proof.
  intros Hlower. unfold detect_account_type, biography_lower. simpl.
  by rewrite Hlower.
Qed.

Lemma detect_account_type_case_witness :
  detect_account_type
    (Some (JDict [("data",
             JDict [("user",
               JDict [("biography", JStr "CEO & Founder")])])])) =
  detect_account_type
    (Some (JDict [("data",
             JDict [("user",
               JDict [("biography", JStr "ceo & founder")])])])).
Proof. apply detect_account_type_case. reflexivity. Defined.

(** ** Profile pictures *)

Section Download.

Variables (http : nat -> outcome Z) (username save_dir : string).


End Download.


(** The download of the sample: the first request fails, the second
    answers 200 and the picture is written under the name of the user. *)
Example download_profile_picture_sample :
  download_profile_picture SampleWorker.http "b" SampleWorker.with_picture
    "output/b" =
  {| downloaded := true; requests_sent := 2;
     picture_file := Some "output/b/b.jpg" |}.
Proof. reflexivity. Qed.

(** ** Worker *)

Section WorkerFacts.

Variable fl : Q -> Q.
Variables (session : string -> graphql_data) (draw : string -> Q)
          (picture : string -> bool).

Implicit Types (u : string) (w : world) (queue : list string).

Lemma map_url_filter u (rows : list row) :
  map url (filter (fun r => url r <> u) rows) =
  filter (fun x => x <> u) (map url rows).
Proof.
  induction rows as [|r rows IH]; [done|].
  simpl. rewrite !filter_cons.
  destruct (decide (url r <> u)); simpl; by rewrite IH.
Qed.

(** What one turn of the worker does to the shared state. *)
Lemma process_url_spec u w :
  let w' := process_url fl session draw picture u w in
  if item_ok fl session draw u then
    done_urls w' = done_urls w ++ [u] /\
    no_response_links w' = no_response_links w /\
    failed (run_stats w') = failed (run_stats w) /\
    saved (run_stats w') = S (saved (run_stats w)) /\
    input_urls w' = filter (fun x => x <> u) (input_urls w)
  else
    done_urls w' = done_urls w /\
    no_response_links w' = no_response_links w ++ [u] /\
    failed (run_stats w') = S (failed (run_stats w)) /\
    input_urls w' = input_urls w.
Proof.
  cbn zeta. unfold process_url, worker_save, save_data, item_ok, wait_ok.
  destruct (private_or_empty (session u)) eqn:Hpe; simpl; [done|].
  destruct (calculate_dynamic_wait_time fl (draw u)
              (profile_info (session u)) ≫= sleep) as [[]|] eqn:Hwait.
  - unfold private_or_empty in Hpe.
    apply orb_false_iff in Hpe as [Hpriv _].
    destruct (profile_info (session u)) as [p|] eqn:Hprofile; [|discriminate].
    destruct (Py.truthy p) eqn:Htruthy.
    2:{ unfold is_private_profile in Hpriv. by rewrite Htruthy in Hpriv. }
    simpl. unfold save_url_to_done_file, remove_url_from_input_file, input_urls.
    destruct (reel_info (session u)) as [r|]; [destruct (Py.truthy r)|];
      simpl; destruct (input_file w); simpl;
      repeat split; by rewrite ?map_url_filter.
  - destruct (profile_info (session u)) as [p|]; [destruct (Py.truthy p)|];
      (destruct (reel_info (session u)) as [r|]; [destruct (Py.truthy r)|]);
      simpl; done.
Qed.

Lemma foldl_process_url queue w :
  let w' := foldl (fun w u => process_url fl session draw picture u w)
              w queue in
  done_urls w' =
    done_urls w ++ filter (fun u => item_ok fl session draw u = true) queue /\
  no_response_links w' =
    no_response_links w ++
    filter (fun u => item_ok fl session draw u <> true) queue /\
  failed (run_stats w') =
    failed (run_stats w) +
    length (filter (fun u => item_ok fl session draw u <> true) queue) /\
  input_urls w' =
    filter (fun x => x ∉ filter (fun u => item_ok fl session draw u = true)
                          queue) (input_urls w).
Proof.
  cbn zeta. revert w. induction queue as [|u queue IH]; intros w.
  - simpl. rewrite !app_nil_r. repeat split; [lia|].
    symmetry. apply filter_all. intros x _. set_solver.
  - simpl foldl. destruct (IH (process_url fl session draw picture u w))
      as (Hd & Hf & Hc & Hi).
    pose proof (process_url_spec u w) as Hstep. cbn zeta in Hstep.
    rewrite Hd, Hf, Hc, Hi, !filter_cons.
    destruct (item_ok fl session draw u) eqn:Hok.
    + destruct Hstep as (-> & -> & -> & _ & ->).
      destruct (decide (true = true)); [|done].
      destruct (decide (true <> true)); [done|].
      rewrite <- app_assoc. repeat split.
      rewrite list_filter_filter. apply filter_ext_in. intros x _. set_solver.
    + destruct Hstep as (-> & -> & -> & ->).
      destruct (decide (false = true)); [done|].
      destruct (decide (false <> true)); [|done].
      rewrite <- app_assoc. simpl. repeat split. lia.
Qed.

End WorkerFacts.

(** X8. A worker that has the queue to itself empties it and counts every url
    once on the progress bar. Each url goes, in the order of the queue, to
    one of two lists and never to both: the completed urls when [save_data]
    marks it complete, the failure list when it does not; the failed counter
    grows by the number of the latter. A worker whose browser cannot be
    created takes nothing from the queue and changes nothing. *)
Theorem worker_thread_accounting
    (fl : Q -> Q) (session : string -> graphql_data) (draw : string -> Q)
    (picture : string -> bool) (queue : list string) (w : world) :
  let ok := fun u => item_ok fl session draw u = true in
  let r := worker_thread fl session draw picture true queue w in
  r.1.2 = [] /\ r.2 = length queue /\
  done_urls r.1.1 = done_urls w ++ filter ok queue /\
  no_response_links r.1.1 =
    no_response_links w ++ filter (fun u => ~ ok u) queue /\
  failed (run_stats r.1.1) =
    failed (run_stats w) + length (filter (fun u => ~ ok u) queue) /\
  length (filter ok queue) + length (filter (fun u => ~ ok u) queue) =
    length queue /\
  worker_thread fl session draw picture false queue w = (w, queue, 0).
Proof.
  cbn zeta. simpl.
  destruct (foldl_process_url fl session draw picture queue w)
    as (Hd & Hf & Hc & _).
  repeat split; try done.
  pose proof (filter_app_complement
                (fun u => item_ok fl session draw u = true) queue) as Hp.
  apply Permutation_length in Hp. by rewrite length_app in Hp.
Qed.

Lemma load_urls_subset (w : world) (u : string) :
  u ∈ (load_urls w).1 -> u ∈ input_urls w.
Proof.
  unfold input_urls. destruct (input_file w) as [rows|] eqn:Hrows.
  - rewrite (load_urls_filter w rows Hrows).
    intros Hin. by apply list_elem_of_filter in Hin as [_ ?].
  - unfold load_urls. by rewrite Hrows.
Qed.

(** X9. A url that a worker has marked complete is not returned by the next
    [load_urls], whether the done file can be read or not: its rows have
    left the input file. *)
Theorem completed_url_not_requeued
    (fl : Q -> Q) (session : string -> graphql_data) (draw : string -> Q)
    (picture : string -> bool) (queue : list string) (w : world)
    (u : string) :
  u ∈ queue ->
  item_ok fl session draw u = true ->
  let w' := (worker_thread fl session draw picture true queue w).1.1 in
  u ∈ done_urls w' /\ u ∉ (load_urls w').1.
Proof.
  intros Hu Hok. cbn zeta. simpl.
  destruct (foldl_process_url fl session draw picture queue w)
    as (Hd & _ & _ & Hi).
  split.
  - rewrite Hd. apply elem_of_app. right. by apply list_elem_of_filter.
  - intros Hin. apply load_urls_subset in Hin. rewrite Hi in Hin.
    apply list_elem_of_filter in Hin as [Hout _]. apply Hout.
    by apply list_elem_of_filter.
Qed.

Lemma completed_url_not_requeued_witness :
  let w' := (worker_thread SampleProfile.exact SampleWorker.session
               SampleWorker.draw SampleWorker.picture true
               ["https://www.instagram.com/a/"; "https://www.instagram.com/b"]
               SampleProfile.world0).1.1 in
  "https://www.instagram.com/b" ∈ done_urls w' /\
  "https://www.instagram.com/b" ∉ (load_urls w').1.
Proof.
  apply (completed_url_not_requeued SampleProfile.exact SampleWorker.session
           SampleWorker.draw SampleWorker.picture
           ["https://www.instagram.com/a/"; "https://www.instagram.com/b"]
           SampleProfile.world0 "https://www.instagram.com/b").
  - set_solver.
  - vm_compute. reflexivity.
Defined.

(** The run of that worker: the private profile fails, the public one is
    marked complete, and the third url is still to do. *)
Example worker_thread_sample :
  let w' := (worker_thread SampleProfile.exact SampleWorker.session
               SampleWorker.draw SampleWorker.picture true
               ["https://www.instagram.com/a/"; "https://www.instagram.com/b"]
               SampleProfile.world0).1.1 in
  done_urls w' = ["https://www.instagram.com/b"] /\
  no_response_links w' = ["https://www.instagram.com/a/"] /\
  (load_urls w').1 = ["https://www.instagram.com/a/";
                      " https://www.instagram.com/c/ "].
Proof. vm_compute. repeat split. Qed.

(** X10. When the wait of the rate limiter raises for a profile that is not
    private, the item is counted twice: [save_data] has written the snapshot
    and counted it as saved, and the worker counts it as failed and puts it
    on the failure list. It is not marked complete, so a later run takes it
    again. *)
Theorem save_then_fail
    (fl : Q -> Q) (base_wait : Q) (picture_ok : bool) (username : string)
    (data : graphql_data) (u : string) (w : world) :
  private_or_empty data = false ->
  (wait_time ← calculate_dynamic_wait_time fl base_wait (profile_info data);
   sleep wait_time) = Raise ->
  let w' := worker_save fl base_wait picture_ok username data u w in
  saved (run_stats w') = S (saved (run_stats w)) /\
  failed (run_stats w') = S (failed (run_stats w)) /\
  no_response_links w' = no_response_links w ++ [u] /\
  done_urls w' = done_urls w /\
  done_file w' = done_file w /\
  input_file w' = input_file w /\
  exists p, profile_info data = Some p /\
            ("output/" +:+ username +:+ "/userInfo.json", p)
              ∈ output_files w'.
Proof.
  intros Hpe Hwait. cbn zeta. unfold worker_save, save_data.
  rewrite Hpe, Hwait. unfold private_or_empty in Hpe.
  apply orb_false_iff in Hpe as [Hpriv _].
  destruct (profile_info data) as [p|] eqn:Hprofile; [|discriminate].
  destruct (Py.truthy p) eqn:Htruthy.
  2:{ unfold is_private_profile in Hpriv. by rewrite Htruthy in Hpriv. }
  destruct (reel_info data) as [r|]; [destruct (Py.truthy r)|]; simpl;
    repeat split; exists p; (split; [done|]); set_solver.
Qed.

Lemma save_then_fail_witness :
  let w' := worker_save SampleProfile.exact (3 # 2) true "b"
              {| profile_info := Some SampleWorker.odd_snapshot;
                 reel_info := None |}
              "https://www.instagram.com/b" SampleProfile.world0 in
  saved (run_stats w') = 1 /\ failed (run_stats w') = 1 /\
  no_response_links w' = ["https://www.instagram.com/b"] /\
  done_urls w' = [] /\ done_file w' = None.
Proof.
  cbn zeta.
  destruct (save_then_fail SampleProfile.exact (3 # 2) true "b"
              {| profile_info := Some SampleWorker.odd_snapshot;
                 reel_info := None |}
              "https://www.instagram.com/b" SampleProfile.world0)
    as (Hs & Hf & Hl & Hd & Hfile & _); [reflexivity | reflexivity |].
  by rewrite Hs, Hf, Hl, Hd, Hfile.
Defined.

(** X11. [save_data] marks complete only a profile whose snapshot says it is not
    private: the snapshot is there and holds a falsy [is_private] under
    [data.user]. *)
Theorem save_data_success_public
    (fl : Q -> Q) (base_wait : Q) (picture_ok : bool) (username : string)
    (data : graphql_data) (u : string) (w : world) :
  (save_data fl base_wait picture_ok username data u w).2 = Ret true ->
  exists p d user v,
    profile_info data = Some p /\
    Py.getitem p "data" = Ret d /\
    Py.getitem d "user" = Ret user /\
    Py.getitem user "is_private" = Ret v /\
    Py.truthy v = false.
Proof.
  unfold save_data. destruct (private_or_empty data) eqn:Hpe; [discriminate|].
  intros _. unfold private_or_empty in Hpe.
  apply orb_false_iff in Hpe as [Hpriv _]. unfold is_private_profile in Hpriv.
  destruct (profile_info data) as [p|]; [|discriminate].
  destruct (Py.truthy p); [|discriminate]. simpl in Hpriv.
  destruct (Py.getitem p "data") as [d|] eqn:Hd; [|discriminate].
  simpl in Hpriv.
  destruct (Py.getitem d "user") as [user|] eqn:Hu; [|discriminate].
  simpl in Hpriv.
  destruct (Py.getitem user "is_private") as [v|] eqn:Hv; [|discriminate].
  simpl in Hpriv. by exists p, d, user, v.
Qed.

Lemma save_data_success_public_witness :
  exists p d user v,
    Some SampleProfile.snapshot = Some p /\
    Py.getitem p "data" = Ret d /\
    Py.getitem d "user" = Ret user /\
    Py.getitem user "is_private" = Ret v /\
    Py.truthy v = false.
Proof.
  apply (save_data_success_public SampleProfile.exact (3 # 2) true "b"
           {| profile_info := Some SampleProfile.snapshot;
              reel_info := None |}
           "https://www.instagram.com/b" SampleProfile.world0).
  vm_compute. reflexivity.
Defined.

(** ** Merge engine, further *)

Section MergeInvariants.

Implicit Types (h : gmap loc (list json)) (es ns : list json).

Lemma ids_of_app es ns : ids_of (es ++ ns) = ids_of es ++ ids_of ns.
Proof.
  induction es as [|e es IH]; simpl; [done|].
  destruct (edge_id e); simpl; by rewrite IH.
Qed.

(** The list of the accumulation after a merge: as it was, or with the
    fresh edges of the new page at its end. *)
Lemma merged_store_lookup h ex nw le es :
  edges_ref ex = Some le -> h !! le = Some es ->
  merged_store h ex nw !! le = Some es \/
  exists ns,
    edges_of h (Some nw) = Some ns /\
    existing_ids_of es = Ret (ids_set es) /\
    merged_store h ex nw !! le =
      Some (es ++ fresh_edges (ids_set es) ns).
Proof.
  intros Hex Hle. unfold merged_store. rewrite Hex.
  destruct nw as [[ln|]]; simpl; [|by left]. rewrite Hle.
  destruct (h !! ln) as [ns|] eqn:Hln; [|by left].
  destruct (existing_ids_of es) as [ids|] eqn:Hids; [|by left].
  destruct (existing_ids_of_Ret _ _ Hids) as [-> _].
  destruct (decide (le = ln)); [by left|].
  right. exists ns. by rewrite lookup_insert_eq.
Qed.

Lemma load_timeline_lookup h body l es :
  h !! l = Some es -> (load_timeline h body).1 !! l = Some es.
Proof.
  intros Hl. unfold load_timeline.
  destruct (edges_path body) as [[| | | |edges|]|]; simpl; try done.
  rewrite lookup_insert_ne; [done|]. intros <-.
  apply (is_fresh (dom h)). apply elem_of_dom. by eexists.
Qed.

(** One event leaves the accumulation's object in place and its records
    where they are. *)
Lemma handle_response_keeps b (s : gmap loc (list json) * combined)
    response t l es :
  combined_reel s.2 = Some t -> edges_ref t = Some l ->
  s.1 !! l = Some es ->
  combined_reel (handle_response b s response).2 = Some t /\
  exists added, (handle_response b s response).1 !! l = Some (es ++ added).
Proof.
  intros Hreel Ht Hl.
  assert (exists added, s.1 !! l = Some (es ++ added)) as Hsame
    by (exists []; by rewrite app_nil_r).
  unfold handle_response.
  destruct (inspect_response b response) as [[new_data|]|]; [|done|done].
  set (cd := if Py.truthy_opt (profile_info new_data) then _ else _).
  assert (combined_reel cd = Some t) as Hcd
    by (subst cd; by destruct (Py.truthy_opt _)).
  destruct (reel_info new_data) as [body|]; [|done].
  destruct (Py.truthy body); [|done]. simpl.
  rewrite Hcd, merge_timeline_data_eq. simpl. split; [done|].
  pose proof (load_timeline_lookup s.1 body l es Hl) as Hl'.
  destruct (merged_store_lookup (load_timeline s.1 body).1 t
              (load_timeline s.1 body).2 l es Ht Hl')
    as [->|(ns & _ & _ & ->)]; [|by eexists].
  exists []. by rewrite app_nil_r.
Qed.

Lemma foldl_handle_response_keeps b responses
    (s : gmap loc (list json) * combined) t l es :
  combined_reel s.2 = Some t -> edges_ref t = Some l ->
  s.1 !! l = Some es ->
  combined_reel (foldl (handle_response b) s responses).2 = Some t /\
  exists added,
    (foldl (handle_response b) s responses).1 !! l = Some (es ++ added).
Proof.
  revert s es. induction responses as [|r rs IH]; intros s es Hreel Ht Hl.
  - simpl. split; [done|]. exists []. by rewrite app_nil_r.
  - simpl.
    destruct (handle_response_keeps b s r t l es Hreel Ht Hl)
      as (Hreel' & added & Hl').
    destruct (IH _ _ Hreel' Ht Hl') as (Hreel'' & added' & Hl'').
    split; [done|]. exists (added ++ added'). by rewrite app_assoc.
Qed.

End MergeInvariants.

(** X12. A merge into an accumulation only appends: the records it holds stay
    where they are, what is added comes from the new page, the object
    returned is the accumulation, and no other list of the store changes.
    This holds for every new page, well-formed or not. *)
Theorem merge_timeline_data_appends
    (h : gmap loc (list json)) (ex : timeline_data)
    (nw : option timeline_data) (es : list json) :
  edges_of h (Some ex) = Some es ->
  let r := merge_timeline_data h (Some ex) nw in
  r.2 = Some ex /\
  (exists added,
     edges_of r.1 (Some ex) = Some (es ++ added) /\
     forall e, e ∈ added ->
               exists ns, edges_of h nw = Some ns /\ e ∈ ns) /\
  (forall l, edges_ref ex <> Some l -> r.1 !! l = h !! l).
Proof.
  intros Hes. cbn zeta. rewrite merge_timeline_data_eq.
  destruct nw as [nw|]; simpl.
  2:{ split; [done|]. split; [|done]. exists []. rewrite app_nil_r.
      split; [done|]. intros e He. by apply elem_of_nil in He. }
  split; [done|]. split; [|intros l Hl; by apply merged_store_other].
  destruct ex as [[le|]]; simpl in Hes; [|done]. simpl.
  destruct (merged_store_lookup h (TimelineData (Some le)) nw le es
              eq_refl Hes) as [->|(ns & Hns & _ & ->)].
  - exists []. rewrite app_nil_r. split; [done|].
    intros e He. by apply elem_of_nil in He.
  - eexists. split; [done|]. intros e He. exists ns. split; [done|].
    eapply elem_of_sublist; [exact He | apply fresh_edges_sublist].
Qed.

Lemma merge_timeline_data_appends_witness :
  let r := merge_timeline_data Sample.page23.1 (Some Sample.page12.2)
             (Some Sample.page23.2) in
  r.2 = Some Sample.page12.2 /\
  edges_of r.1 (Some Sample.page12.2) =
    Some ([Sample.edge 1 "a"; Sample.edge 2 "b"] ++ [Sample.edge 3 "d"]) /\
  edges_of r.1 (Some Sample.page23.2) =
    edges_of Sample.page23.1 (Some Sample.page23.2).
Proof.
  cbn zeta.
  destruct (merge_timeline_data_appends Sample.page23.1 Sample.page12.2
              (Some Sample.page23.2) [Sample.edge 1 "a"; Sample.edge 2 "b"]
              eq_refl) as (Hobj & _ & Hframe).
  split; [exact Hobj|]. split; [vm_compute; reflexivity|].
  apply (Hframe 1). discriminate.
Defined.

(** X13. An accumulation in which no id comes twice stays so under every merge,
    well-formed or not. *)
Theorem merge_timeline_data_keeps_ids_distinct
    (h : gmap loc (list json)) (ex : timeline_data)
    (nw : option timeline_data) (es : list json) :
  edges_of h (Some ex) = Some es ->
  NoDup (ids_of es) ->
  let r := merge_timeline_data h (Some ex) nw in
  exists es', edges_of r.1 r.2 = Some es' /\ NoDup (ids_of es').
Proof.
  intros Hes Hnd. cbn zeta. rewrite merge_timeline_data_eq.
  destruct nw as [nw|]; simpl; [|by exists es].
  destruct ex as [[le|]]; simpl in Hes; [|done]. simpl.
  destruct (merged_store_lookup h (TimelineData (Some le)) nw le es
              eq_refl Hes) as [->|(ns & _ & _ & ->)]; [by exists es|].
  eexists. split; [done|]. rewrite ids_of_app.
  destruct (fresh_edges_ids_nodup (ids_set es) ns) as [Hnd' Hdisj].
  apply NoDup_app. split; [done|]. split; [|done].
  intros k Hk Hk'. apply (Hdisj k); unfold ids_set; by apply elem_of_list_to_set.
Qed.

Lemma merge_timeline_data_keeps_ids_distinct_witness :
  let r := merge_timeline_data Sample.page23.1 (Some Sample.page12.2)
             (Some Sample.page23.2) in
  exists es', edges_of r.1 r.2 = Some es' /\ NoDup (ids_of es').
Proof.
  apply (merge_timeline_data_keeps_ids_distinct Sample.page23.1
           Sample.page12.2 (Some Sample.page23.2)
           [Sample.edge 1 "a"; Sample.edge 2 "b"]).
  - reflexivity.
  - apply (bool_decide_unpack _). vm_compute. exact I.
Defined.

(** ** Scroll controller, further *)

(** X14. During an iteration no record of the accumulation is lost or moved: the
    records held before the events are a prefix of those held after, and the
    record count does not go down. *)
Theorem classify_events_keeps_records
    (b : batch) (st st1 : loop_state) (t : timeline_data) (es : list json) :
  classify_events b st = Ret st1 ->
  combined_reel (combined_data st) = Some t ->
  edges_of (store st) (Some t) = Some es ->
  combined_reel (combined_data st1) = Some t /\
  (exists added, edges_of (store st1) (Some t) = Some (es ++ added)) /\
  exists n1, count_posts (store st1) (combined_data st1) = Ret n1 /\
             length es <= n1.
Proof.
  intros Hc Hreel Hes. unfold classify_events in Hc.
  destruct (get_network_responses b) as [responses|]; [|discriminate].
  injection Hc as <-. simpl.
  destruct t as [[l|]]; simpl in Hes; [|done].
  destruct (foldl_handle_response_keeps b responses
              (store st, combined_data st) (TimelineData (Some l)) l es
              Hreel eq_refl Hes) as (Hreel' & added & Hl).
  split; [done|]. split; [by exists added|].
  unfold count_posts. rewrite Hreel'. simpl. rewrite Hl.
  eexists. split; [done|]. rewrite length_app. lia.
Qed.

Lemma classify_events_keeps_records_witness :
  exists st1 added,
    classify_events SampleSession.one_bad_body SampleSession.stalled
      = Ret st1 /\
    edges_of (store st1) (Some SampleSession.thirty.2) =
      Some (default [] (edges_of SampleSession.thirty.1
                          (Some SampleSession.thirty.2)) ++ added).
Proof.
  destruct (classify_events SampleSession.one_bad_body SampleSession.stalled)
    as [st1|] eqn:Hc; [|discriminate Hc].
  destruct (classify_events_keeps_records SampleSession.one_bad_body
              SampleSession.stalled st1 SampleSession.thirty.2
              (default [] (edges_of SampleSession.thirty.1
                             (Some SampleSession.thirty.2))) Hc
              eq_refl eq_refl) as (_ & (added & Hadded) & _).
  by exists st1, added.
Defined.

(** X15. A body whose [data] is null, as an error answer has it, raises in the
    classifier; a session that delivers only such bodies leaves the
    accumulation as it is, event after event. *)
Theorem error_body_is_passed_over
    (b : batch) (body : json) (s : gmap loc (list json) * combined)
    (responses : list json) :
  Py.getitem body "data" = Ret JNull ->
  (forall request_id, bodies b request_id = Ret body) ->
  process_graphql_response body = Raise /\
  foldl (handle_response b) s responses = s.
Proof.
  intros Hdata Hbodies.
  assert (process_graphql_response body = Raise) as Hraise.
  { destruct body as [| | | | |fields]; try discriminate.
    unfold process_graphql_response. simpl in *.
    destruct (Py.assoc "data" fields); [|discriminate].
    by injection Hdata as ->. }
  split; [exact Hraise|].
  induction responses as [|r rs IH]; [done|]. simpl.
  assert (handle_response b s r = s) as ->; [|exact IH].
  unfold handle_response.
  assert (forall d, inspect_response b r <> Ret (Some d)) as Hno.
  { intros d. unfold inspect_response.
    destruct (Py.contains "params" r) as [[]|]; simpl; try done.
    destruct (Py.getitem r "params") as [params|]; simpl; [|done].
    destruct (Py.contains "response" params) as [[]|]; simpl; try done.
    destruct (Py.getitem params "response") as [resp|]; simpl; [|done].
    destruct (Py.get resp "url" (JStr EmptyString)) as [u|]; simpl; [|done].
    destruct (Py.contains "graphql/query" u) as [[]|]; simpl; try done.
    destruct (Py.get params "requestId" JNull) as [rid|]; simpl; [|done].
    destruct (Py.truthy rid); simpl; [|done].
    destruct (bodies b rid) as [bd|] eqn:Hb; simpl; [|done].
    rewrite Hbodies in Hb. injection Hb as <-. by rewrite Hraise. }
  destruct (inspect_response b r) as [[d|]|]; [by destruct (Hno d)|done|done].
Qed.

Lemma error_body_is_passed_over_witness :
  process_graphql_response SampleErrors.error_body = Raise /\
  foldl (handle_response SampleErrors.session)
        (SampleSession.thirty.1, combined_data SampleSession.stalled)
        [SampleSession.graphql_event "1"; SampleSession.graphql_event "2"] =
  (SampleSession.thirty.1, combined_data SampleSession.stalled).
Proof.
  apply (error_body_is_passed_over SampleErrors.session
           SampleErrors.error_body); [reflexivity|].
  intros request_id. reflexivity.
Defined.

Section ScrollBudget.

Implicit Types (b : batch) (st : loop_state) (env : nat -> batch).

(** An iteration in which nothing is captured, on fewer than 30 records:
    the loop goes on with the accumulation as it is. *)
Lemma quiet_iteration b st n :
  get_network_responses b = Ret [] -> scroll_ok b = true ->
  count_posts (store st) (combined_data st) = Ret n -> n < 30 ->
  exists st',
    scroll_iteration b st = Continue st' /\
    scroll_attempts st' = S (scroll_attempts st) /\
    combined_data st' = combined_data st /\ store st' = store st.
Proof.
  intros Hb Hscroll Hcount Hn.
  unfold scroll_iteration, classify_events, scroll.
  rewrite Hb, Hscroll.
  cbn [foldl fst snd store combined_data posts_before no_new_posts_count
       scroll_attempts].
  rewrite Hcount.
  destruct (target_posts <=? n) eqn:Ht;
    [apply Nat.leb_le in Ht; unfold target_posts in Ht; lia|].
  destruct (n =? posts_before st).
  - rewrite (proj2 (Nat.leb_gt 30 n)) by lia. rewrite andb_false_r.
    by eexists.
  - by eexists.
Qed.

Lemma quiet_loop m env k st n :
  (forall i, get_network_responses (env i) = Ret [] /\
             scroll_ok (env i) = true) ->
  count_posts (store st) (combined_data st) = Ret n -> n < 30 ->
  MAX_SCROLL_ATTEMPTS - scroll_attempts st = m ->
  exists st',
    combined_data st' = combined_data st /\ store st' = store st /\
    forall fuel, m < fuel ->
      scroll_loop fuel env k st = Some (MaxAttempts, st', k + m).
Proof.
  intros Henv. revert k st. induction m as [|m IH]; intros k st Hcount Hn Hm.
  - exists st. split; [done|]. split; [done|].
    intros [|fuel] Hfuel; [lia|]. simpl.
    destruct (scroll_attempts st <? MAX_SCROLL_ATTEMPTS) eqn:Hlt.
    + apply Nat.ltb_lt in Hlt. lia.
    + by rewrite Nat.add_0_r.
  - destruct (Henv k) as [Hb Hs].
    destruct (quiet_iteration (env k) st n Hb Hs Hcount Hn)
      as (st1 & Hit & Ha & Hcd & Hst).
    destruct (IH (S k) st1) as (st' & Hcd' & Hst' & Hrun);
      [by rewrite Hcd, Hst | done | lia |].
    exists st'. split; [congruence|]. split; [congruence|].
    intros [|fuel] Hfuel; [lia|]. simpl.
    rewrite (proj2 (Nat.ltb_lt _ _)) by lia. rewrite Hit.
    rewrite Hrun by lia. by replace (k + S m) with (S k + m) by lia.
Qed.

End ScrollBudget.

(** X16. With fewer than 30 records, a session that captures nothing more never
    stops for stagnation: the loop uses every attempt that is left, 15 from
    the start, and ends on the budget with the accumulation as it was. *)
Theorem scroll_loop_uses_budget_below_floor
    (env : nat -> batch) (st : loop_state) (n : nat) :
  (forall i, get_network_responses (env i) = Ret [] /\
             scroll_ok (env i) = true) ->
  count_posts (store st) (combined_data st) = Ret n ->
  n < 30 ->
  scroll_attempts st <= MAX_SCROLL_ATTEMPTS ->
  exists st',
    combined_data st' = combined_data st /\ store st' = store st /\
    forall fuel, MAX_SCROLL_ATTEMPTS < fuel ->
      scroll_loop fuel env 0 st =
      Some (MaxAttempts, st', MAX_SCROLL_ATTEMPTS - scroll_attempts st).
Proof.
  intros Henv Hcount Hn Ha.
  destruct (quiet_loop (MAX_SCROLL_ATTEMPTS - scroll_attempts st) env 0 st n
              Henv Hcount Hn eq_refl) as (st' & Hcd & Hst & Hrun).
  exists st'. split; [done|]. split; [done|].
  intros fuel Hfuel. apply Hrun. lia.
Qed.

Lemma scroll_loop_uses_budget_below_floor_witness :
  exists st',
    scroll_loop 16 (fun _ => SampleSession.quiet) 0 (initial_state ∅) =
    Some (MaxAttempts, st', 15).
Proof.
  destruct (scroll_loop_uses_budget_below_floor
              (fun _ => SampleSession.quiet) (initial_state ∅) 0)
    as (st' & _ & _ & Hrun).
  - intros i. split; reflexivity.
  - reflexivity.
  - lia.
  - unfold MAX_SCROLL_ATTEMPTS. simpl. lia.
  - exists st'. apply Hrun. unfold MAX_SCROLL_ATTEMPTS. lia.
Defined.

(** X17. Reaching the target of 50 records ends the loop at once, with the
    target reason, whatever the stagnation counter holds, on the last
    attempt too, and without a further scroll. *)
Theorem target_stops_scrolling
    (b : batch) (st st1 : loop_state) (posts_after : nat) :
  scroll_attempts st < MAX_SCROLL_ATTEMPTS ->
  classify_events b st = Ret st1 ->
  count_posts (store st1) (combined_data st1) = Ret posts_after ->
  target_posts <= posts_after ->
  scroll_iteration b st = Break TargetReached st1 /\
  scroll_attempts st1 = scroll_attempts st /\
  forall fuel env k,
    env k = b ->
    scroll_loop (S fuel) env k st = Some (TargetReached, st1, S k).
Proof.
  intros Hbudget Hc Hcount Htarget.
  assert (scroll_iteration b st = Break TargetReached st1) as Hit.
  { unfold scroll_iteration. rewrite Hc, Hcount.
    by rewrite (proj2 (Nat.leb_le _ _) Htarget). }
  split; [exact Hit|]. split.
  - by apply classify_events_counters in Hc as (-> & _).
  - intros fuel env k Hk. simpl.
    by rewrite (proj2 (Nat.ltb_lt _ _) Hbudget), Hk, Hit.
Qed.

Lemma target_stops_scrolling_witness :
  scroll_iteration SampleSession.quiet SampleTarget.reached =
    Break TargetReached SampleTarget.reached /\
  scroll_loop 16 (fun _ => SampleSession.quiet) 0 SampleTarget.reached =
    Some (TargetReached, SampleTarget.reached, 1).
Proof.
  destruct (target_stops_scrolling SampleSession.quiet SampleTarget.reached
              SampleTarget.reached 50) as (Hit & _ & Hloop).
  - unfold MAX_SCROLL_ATTEMPTS. simpl. lia.
  - reflexivity.
  - vm_compute. reflexivity.
  - unfold target_posts. lia.
  - split; [exact Hit|].
    exact (Hloop 15 (fun _ => SampleSession.quiet) 0 eq_refl).
Defined.

(** ** Post links *)

Section PostLinkFacts.

Variable format : json -> string.

Implicit Types (d : list (string * json)) (k : string) (v : json).

Lemma assoc_dict_set_eq k v d : Py.assoc k (dict_set k v d) = Some v.
Proof.
  induction d as [|[k' v'] d IH]; simpl.
  - by rewrite String.eqb_refl.
  - destruct (String.eqb k k') eqn:Hk; simpl.
    + by rewrite String.eqb_refl.
    + by rewrite Hk.
Qed.

Lemma assoc_dict_set_ne k k' v d :
  k <> k' -> Py.assoc k' (dict_set k v d) = Py.assoc k' d.
Proof.
  intros Hne. induction d as [|[k0 v0] d IH]; simpl.
  - destruct (String.eqb k' k) eqn:Hk; [|done].
    apply String.eqb_eq in Hk. congruence.
  - destruct (String.eqb k k0) eqn:Hk; simpl.
    + apply String.eqb_eq in Hk as <-.
      destruct (String.eqb k' k) eqn:Hk'; [|done].
      apply String.eqb_eq in Hk'. congruence.
    + by rewrite IH.
Qed.

Lemma dict_set_same k v d :
  Py.assoc k d = Some v -> dict_set k v d = d.
Proof.
  induction d as [|[k' v'] d IH]; simpl; [done|].
  destruct (String.eqb k k') eqn:Hk.
  - apply String.eqb_eq in Hk as <-. by intros [= ->].
  - intros Hd. by rewrite IH.
Qed.

(** What [add_post_link] returns when it changes the edge. *)
Lemma add_post_link_cases edge edge' :
  add_post_link format edge = Ret edge' ->
  edge' = edge \/
  exists fields node_fields shortcode,
    edge = JDict fields /\
    Py.assoc "node" fields = Some (JDict node_fields) /\
    Py.get (JDict node_fields) "shortcode" (JStr EmptyString)
      = Ret shortcode /\
    Py.truthy shortcode = true /\
    edge' =
      JDict (dict_set "node"
               (JDict (dict_set "post_code" shortcode
                         (dict_set "post_url"
                            (JStr ("https://www.instagram.com/p/"
                                   +:+ format_value format shortcode
                                   +:+ "/"))
                            node_fields)))
               fields).
Proof.
  unfold add_post_link. destruct edge as [| | | | |fields]; try done.
  destruct (Py.assoc "node" fields) as [node|] eqn:Hnode;
    [|intros [= <-]; by left].
  destruct (Py.get node "shortcode" (JStr EmptyString)) as [sc|] eqn:Hsc;
    [|done].
  simpl. destruct (Py.truthy sc) eqn:Ht; [|intros [= <-]; by left].
  destruct node as [| | | | |node_fields]; try done.
  intros [= <-]. right. by exists fields, node_fields, sc.
Qed.

Lemma add_post_link_edge_id edge edge' :
  add_post_link format edge = Ret edge' -> edge_id edge' = edge_id edge.
Proof.
  intros Hadd.
  destruct (add_post_link_cases _ _ Hadd)
    as [->|(fields & nf & sc & -> & Hnode & _ & _ & ->)]; [done|].
  unfold edge_id. simpl.
  rewrite assoc_dict_set_eq, Hnode. simpl.
  by rewrite !assoc_dict_set_ne.
Qed.

Lemma add_post_link_again edge edge' :
  add_post_link format edge = Ret edge' ->
  add_post_link format edge' = Ret edge'.
Proof.
  intros Hadd.
  destruct (add_post_link_cases _ _ Hadd)
    as [->|(fields & nf & sc & -> & Hnode & Hsc & Ht & ->)]; [done|].
  unfold add_post_link. rewrite assoc_dict_set_eq.
  simpl in Hsc. injection Hsc as Hsc. simpl.
  rewrite !assoc_dict_set_ne by done. rewrite Hsc, Ht.
  rewrite (dict_set_same "post_url")
    by (by rewrite assoc_dict_set_ne, assoc_dict_set_eq).
  rewrite (dict_set_same "post_code") by apply assoc_dict_set_eq.
  by rewrite (dict_set_same "node") by apply assoc_dict_set_eq.
Qed.

End PostLinkFacts.

(** X18. Adding the post links leaves the records in place: there are as many,
    in the same order, each with the id it had; so the record count and the
    de-duplication of the accumulation are not touched. *)
Theorem add_post_links_keeps_ids
    (format : json -> string) (edges edges' : list json) :
  add_post_links format edges = Ret edges' ->
  length edges' = length edges /\
  map edge_id edges' = map edge_id edges /\
  ids_of edges' = ids_of edges.
Proof.
  revert edges'. induction edges as [|e es IH]; intros edges'; simpl.
  - by intros [= <-].
  - destruct (add_post_link format e) as [e'|] eqn:He; [|done]. simpl.
    destruct (add_post_links format es) as [es'|]; [|done]. simpl.
    intros [= <-]. destruct (IH es' eq_refl) as (Hlen & Hmap & Hids).
    simpl. rewrite (add_post_link_edge_id format e e' He), Hlen, Hmap, Hids.
    done.
Qed.

Lemma add_post_links_keeps_ids_witness :
  exists edges',
    add_post_links SamplePosts.format SamplePosts.edges = Ret edges' /\
    length edges' = 3 /\
    ids_of edges' = [IdStr "1"; IdStr "2"; IdStr "3"].
Proof.
  destruct (add_post_links SamplePosts.format SamplePosts.edges)
    as [edges'|] eqn:Hadd; [|discriminate Hadd].
  destruct (add_post_links_keeps_ids SamplePosts.format SamplePosts.edges
              edges' Hadd) as (Hlen & _ & Hids).
  exists edges'. split; [done|]. by rewrite Hlen, Hids.
Defined.

(** X19. Adding the post links a second time changes nothing. *)
Theorem add_post_links_idempotent
    (format : json -> string) (edges edges' : list json) :
  add_post_links format edges = Ret edges' ->
  add_post_links format edges' = Ret edges'.
Proof.
  revert edges'. induction edges as [|e es IH]; intros edges'; simpl.
  - by intros [= <-].
  - destruct (add_post_link format e) as [e'|] eqn:He; [|done]. simpl.
    destruct (add_post_links format es) as [es'|]; [|done]. simpl.
    intros [= <-]. simpl.
    by rewrite (add_post_link_again format e e' He), (IH es' eq_refl).
Qed.

Lemma add_post_links_idempotent_witness :
  exists edges',
    add_post_links SamplePosts.format SamplePosts.edges = Ret edges' /\
    add_post_links SamplePosts.format edges' = Ret edges' /\
    edges' <> SamplePosts.edges.
Proof.
  destruct (add_post_links SamplePosts.format SamplePosts.edges)
    as [edges'|] eqn:Hadd; [|discriminate Hadd].
  exists edges'. split; [done|]. split.
  - exact (add_post_links_idempotent SamplePosts.format SamplePosts.edges
             edges' Hadd).
  - vm_compute in Hadd. injection Hadd as <-. discriminate.
Defined.

(** The links of the sample: the record with a shortcode gets its url, the
    one without is as it was, and an old [post_code] is replaced in place. *)
Example add_post_links_sample :
  add_post_links SamplePosts.format SamplePosts.edges =
  Ret [JDict [("node",
               JDict [("id", JStr "1"); ("shortcode", JStr "Cabc");
                      ("post_url",
                       JStr "https://www.instagram.com/p/Cabc/");
                      ("post_code", JStr "Cabc")])];
       JDict [("node", JDict [("id", JStr "2")])];
       JDict [("node",
               JDict [("id", JStr "3"); ("shortcode", JInt 7);
                      ("post_code", JInt 7);
                      ("post_url",
                       JStr "https://www.instagram.com/p/7/")])]].
Proof. reflexivity. Qed.

(** ** Done-log, further *)


(** ** Queue of a run *)

(** X21. The queue of a run holds urls of the input file only, none of them
    completed, in the order of the input; in test mode it holds the first
    [MAX_TEST_PROFILES] = 5 pending urls at most, and it is empty when
    nothing is pending. *)
Theorem queued_urls_pending (test_mode : bool) (w : world) :
  queued_urls test_mode w `prefix_of` (load_urls w).1 /\
  (forall u, u ∈ queued_urls test_mode w ->
             u ∈ input_urls w /\ normalize u ∉ completed_set w) /\
  (test_mode = true -> length (queued_urls test_mode w) <= 5) /\
  (test_mode = false -> queued_urls test_mode w = (load_urls w).1) /\
  ((load_urls w).1 = [] -> queued_urls test_mode w = []).
Proof.
  assert (queued_urls test_mode w `prefix_of` (load_urls w).1) as Hpre.
  { unfold queued_urls.
    destruct (test_mode && _); [apply prefix_take | done]. }
  split; [exact Hpre|]. split; [|split; [|split]].
  - intros u Hu.
    assert (u ∈ (load_urls w).1) as Hin.
    { destruct Hpre as [k ->]. apply elem_of_app. by left. }
    split; [by apply load_urls_subset|].
    unfold input_urls. destruct (input_file w) as [rows|] eqn:Hrows.
    + rewrite (load_urls_filter w rows Hrows) in Hin.
      by apply list_elem_of_filter in Hin as [? _].
    + unfold load_urls in Hin. rewrite Hrows in Hin.
      by apply elem_of_nil in Hin.
  - intros ->. unfold queued_urls, MAX_TEST_PROFILES. simpl.
    destruct (5 <? length (load_urls w).1) eqn:Hlt.
    + rewrite length_take. lia.
    + apply Nat.ltb_ge in Hlt. lia.
  - by intros ->.
  - intros Hempty. unfold queued_urls. rewrite Hempty.
    by destruct (test_mode && _).
Qed.

(** ** Rate limiter, further *)

Section WaitBounds.

Variable fl : Q -> Q.
Hypothesis fl_monotone : forall x y, (x <= y)%Q -> (fl x <= fl y)%Q.
Hypothesis fl_zero : (fl 0 == 0)%Q.





End WaitBounds.


